(** * Fulcrum utilities: a shallow embedding and its properties

    The development embeds the record utilities of
    [template_code/utility_functions/fulcrum_utilities.py]
    (class [FulcrumUtilities]) and states the properties of the record
    pipeline against them: pagination, flattening, merge by recency,
    content hashing and date parsing.

    Layout: module [Py] holds the fragment of Python's semantics the
    utilities rely on (values, truthiness, comparison, dictionaries,
    [range], slicing, [json.dumps], MD5); module [FulcrumUtilities] holds
    the functions, one definition per method and under the method's name;
    the properties follow. *)

From Stdlib Require Import ZArith NArith List String Ascii Bool Lia.
From Stdlib Require Import Permutation Sorted DecimalString.
Import ListNotations.

Local Set Warnings "-register-all".
Local Open Scope string_scope.
Local Open Scope Z_scope.

(** ** Python semantics used by the utilities *)

Module Py.

(** Exceptions, by class.  Only the classes that the modelled code can let
    escape or has to catch occur. *)
Inductive exn : Type :=
| NameError (name : string)
| TypeError
| ValueError
| OverflowError
| OSError.

(** The outcome of a call: a value, or a raised exception. *)
Inductive result (A : Type) : Type :=
| Ok (a : A)
| Raise (e : exn).
Arguments Ok {A} a.
Arguments Raise {A} e.

Definition bind {A B : Type} (m : result A) (k : A -> result B) : result B :=
  match m with
  | Ok a => k a
  | Raise e => Raise e
  end.

Notation "x <- m ;; k" := (bind m (fun x => k))
  (at level 61, m at next level, right associativity).

(** A call together with what it sent to [logger.warning], in order. *)
Definition logged (A : Type) : Type := (result A * list string)%type.

(** A computation that makes no logger call. *)
Definition silent {A : Type} (r : result A) : logged A := (r, []).

(** A float is identified by the decimal that [repr] prints for it (the
    shortest decimal that reads back to the same binary64 value):
    sign, mantissa and power of ten.  Its value is the binary64 number
    nearest to that decimal ([float_num] below); comparisons use the
    value, never the decimal.  Not-a-number and the infinities are left
    out: JSON payloads do not carry them. *)
Record pyfloat : Type := mkFloat { fneg : bool; fmant : N; fexp : Z }.

(** JSON-shaped Python values.  A [dict] keeps its insertion order, so it is
    an association list; its keys are strings and pairwise distinct
    (see [wf_value]). *)
Inductive value : Type :=
| VNone
| VBool (b : bool)
| VInt (z : Z)
| VFloat (f : pyfloat)
| VStr (s : string)
| VList (l : list value)
| VDict (d : list (string * value)).

Definition dict : Type := list (string * value).

(** *** Dictionaries with string keys *)

Fixpoint dict_lookup {A : Type} (d : list (string * A)) (k : string) : option A :=
  match d with
  | [] => None
  | (k', v) :: d' => if String.eqb k' k then Some v else dict_lookup d' k
  end.

(** [d.get(k)] and [d.get(k, default)]. *)
Definition dict_get (d : dict) (k : string) : value :=
  match dict_lookup d k with Some v => v | None => VNone end.

Definition dict_get_default (d : dict) (k : string) (default : value) : value :=
  match dict_lookup d k with Some v => v | None => default end.

(** [d[k] = v]: an existing key keeps its position, a new one goes last. *)
Fixpoint dict_set {A : Type} (d : list (string * A)) (k : string) (v : A)
  : list (string * A) :=
  match d with
  | [] => [(k, v)]
  | (k', v') :: d' =>
      if String.eqb k' k then (k', v) :: d' else (k', v') :: dict_set d' k v
  end.

(** [dict(items)]: the pairs are inserted from left to right. *)
Definition dict_of_items {A : Type} (items : list (string * A)) : list (string * A) :=
  fold_left (fun d kv => dict_set d (fst kv) (snd kv)) items [].

(** *** Numbers *)

(** A number as [m * 2^e]: every [int] and every finite binary64 value is
    one, so comparing two of them is exact, as it is in Python. *)
Definition num : Type := (Z * Z)%type.

(** [n / d] rounded to the nearest integer, ties to the even one
    ([0 <= n], [0 < d]). *)
Definition round_half_even (n d : Z) : Z :=
  let q := n / d in
  match Z.compare (2 * (n mod d)) d with
  | Lt => q
  | Gt => q + 1
  | Eq => if Z.even q then q else q + 1
  end.

(** The binary64 number nearest to [n / d] ([0 <= n], [0 < d]), as
    [r * 2^q]: with [2^k <= n / d < 2^(k+1)], the spacing of binary64 at
    that magnitude is [2^(k-52)], and [2^-1074] in the subnormal range. *)
Definition binary64_round (n d : Z) : num :=
  if n =? 0 then (0, 0) else
  let k0 := Z.log2 n - Z.log2 d in
  let k := if d * 2 ^ Z.max k0 0 <=? n * 2 ^ Z.max (- k0) 0 then k0 else k0 - 1 in
  let q := Z.max (k - 52) (-1074) in
  (round_half_even (n * 2 ^ Z.max (- q) 0) (d * 2 ^ Z.max q 0), q).

(** The binary64 number nearest to [m * 10^e]. *)
Definition binary64_of_decimal (m : N) (e : Z) : num :=
  binary64_round (Z.of_N m * 10 ^ Z.max e 0) (10 ^ Z.max (- e) 0).

(** The value of a float. *)
Definition float_num (f : pyfloat) : num :=
  let x := binary64_of_decimal (fmant f) (fexp f) in
  ((if fneg f then - fst x else fst x), snd x).

Definition num_compare (a b : num) : comparison :=
  let e := Z.min (snd a) (snd b) in
  Z.compare (fst a * 2 ^ (snd a - e)) (fst b * 2 ^ (snd b - e)).

(** The numeric reading of a value: [bool] is a subclass of [int]. *)
Definition as_num (v : value) : option num :=
  match v with
  | VBool b => Some ((if b then 1 else 0), 0)
  | VInt z => Some (z, 0)
  | VFloat f => Some (float_num f)
  | _ => None
  end.

(** *** Truthiness, equality, ordering, hashability *)

Definition truthy (v : value) : bool :=
  match v with
  | VNone => false
  | VBool b => b
  | VInt z => negb (z =? 0)
  | VFloat f => negb (fst (float_num f) =? 0)
  | VStr s => negb (String.eqb s "")
  | VList l => match l with [] => false | _ => true end
  | VDict d => match d with [] => false | _ => true end
  end.

(** [a == b].  Numbers compare by value across [bool], [int] and [float];
    lists element by element; dicts as sets of entries. *)
Fixpoint py_eq (a b : value) {struct a} : bool :=
  match a with
  | VNone => match b with VNone => true | _ => false end
  | VStr s => match b with VStr t => String.eqb s t | _ => false end
  | VList la =>
      match b with
      | VList lb =>
          (fix go (xs ys : list value) {struct xs} : bool :=
             match xs, ys with
             | [], [] => true
             | x :: xs', y :: ys' => py_eq x y && go xs' ys'
             | _, _ => false
             end) la lb
      | _ => false
      end
  | VDict da =>
      match b with
      | VDict db =>
          (Nat.eqb (List.length da) (List.length db)) &&
          (fix go (xs : list (string * value)) {struct xs} : bool :=
             match xs with
             | [] => true
             | (k, x) :: xs' =>
                 match dict_lookup db k with
                 | Some y => py_eq x y && go xs'
                 | None => false
                 end
             end) da
      | _ => false
      end
  | VBool _ | VInt _ | VFloat _ =>
      match as_num a, as_num b with
      | Some x, Some y =>
          match num_compare x y with Eq => true | _ => false end
      | _, _ => false
      end
  end.

(** [str] ordering: lexicographic on code points. *)
Definition str_gt (s t : string) : bool :=
  match String.compare s t with Gt => true | _ => false end.

(** [a > b].  Defined between two strings, between two numbers and between
    two lists; any other pairing raises [TypeError]. *)
Fixpoint py_gt (a b : value) {struct a} : result bool :=
  match a with
  | VStr s => match b with VStr t => Ok (str_gt s t) | _ => Raise TypeError end
  | VList la =>
      match b with
      | VList lb =>
          (fix go (xs ys : list value) {struct xs} : result bool :=
             match xs, ys with
             | [], _ => Ok false
             | _ :: _, [] => Ok true
             | x :: xs', y :: ys' =>
                 if py_eq x y then go xs' ys' else py_gt x y
             end) la lb
      | _ => Raise TypeError
      end
  | VBool _ | VInt _ | VFloat _ =>
      match as_num a, as_num b with
      | Some x, Some y =>
          Ok (match num_compare x y with Gt => true | _ => false end)
      | _, _ => Raise TypeError
      end
  | VNone | VDict _ => Raise TypeError
  end.

(** Lists and dicts are unhashable: using one as a dictionary key raises
    [TypeError]. *)
Definition hashable (v : value) : bool :=
  match v with
  | VList _ | VDict _ => false
  | _ => true
  end.

(** *** Dictionaries keyed by arbitrary hashable values

    Keys are matched with [==], so [1], [1.0] and [True] are one key. *)
Fixpoint vdict_lookup {A : Type} (d : list (value * A)) (k : value) : option A :=
  match d with
  | [] => None
  | (k', v) :: d' => if py_eq k' k then Some v else vdict_lookup d' k
  end.

Fixpoint vdict_set {A : Type} (d : list (value * A)) (k : value) (v : A)
  : list (value * A) :=
  match d with
  | [] => [(k, v)]
  | (k', v') :: d' =>
      if py_eq k' k then (k', v) :: d' else (k', v') :: vdict_set d' k v
  end.

Definition vdict_values {A : Type} (d : list (value * A)) : list A :=
  map snd d.

(** *** [range] and slices *)

(** [range(start, stop, step)] as the list of its elements. *)
Definition py_range (start stop step : Z) : result (list Z) :=
  if step =? 0 then Raise ValueError
  else
    let count :=
      if 0 <? step
      then (if start <? stop then (stop - start - 1) / step + 1 else 0)
      else (if stop <? start then (start - stop - 1) / (- step) + 1 else 0) in
    Ok (map (fun k => start + Z.of_nat k * step) (seq 0 (Z.to_nat count))).

(** A slice bound, brought into [0 .. len]: negative bounds count from the
    end, and both are clamped. *)
Definition slice_index (len i : Z) : Z :=
  if i <? 0 then Z.max (i + len) 0 else Z.min i len.

(** [l[i:j]]. *)
Definition py_slice {A : Type} (l : list A) (i j : Z) : list A :=
  let len := Z.of_nat (List.length l) in
  let lo := slice_index len i in
  let hi := slice_index len j in
  firstn (Z.to_nat (hi - lo)) (skipn (Z.to_nat lo) l).

(** Decimal text of an integer, as [str(n)] and the [f"{n}"] form print it. *)
Definition str_of_Z (z : Z) : string :=
  NilZero.string_of_int (Z.to_int z).

(** *** [json.dumps(obj, sort_keys=True, default=str)]

    Strings are sequences of code points below 256.  With the default
    [ensure_ascii] every character outside [' ' .. '~'], the quote and the
    backslash are escaped.  [default=str] is consulted only for objects
    that are not JSON-shaped, which [value] does not contain.  An integer
    is written in full: the bound that the interpreter puts on the number
    of digits of an integer's text (4300 unless it is reconfigured), past
    which the call raises [ValueError], is not modelled. *)

Definition dquote : string := String (ascii_of_nat 34) "".

Definition hex_digit (n : N) : string :=
  String.substring (N.to_nat n) 1 "0123456789abcdef".

Definition json_escape_char (c : ascii) : string :=
  let n := N_of_ascii c in
  if (n =? 34)%N then "\" ++ dquote
  else if (n =? 92)%N then "\\"
  else if (n =? 10)%N then "\n"
  else if (n =? 13)%N then "\r"
  else if (n =? 9)%N then "\t"
  else if (n =? 8)%N then "\b"
  else if (n =? 12)%N then "\f"
  else if ((32 <=? n) && (n <=? 126))%N then String c ""
  else "\u00" ++ hex_digit (n / 16) ++ hex_digit (n mod 16).

Fixpoint json_escape (s : string) : string :=
  match s with
  | EmptyString => ""
  | String c s' => json_escape_char c ++ json_escape s'
  end.

Definition json_string (s : string) : string :=
  dquote ++ json_escape s ++ dquote.

Fixpoint zeros (n : nat) : string :=
  match n with
  | O => ""
  | S n' => "0" ++ zeros n'
  end.

(** The digits of [s] without trailing zeros, and how many were dropped. *)
Fixpoint strip_zeros (s : string) : string * nat :=
  match s with
  | EmptyString => ("", O)
  | String c s' =>
      let (t, k) := strip_zeros s' in
      if String.eqb t "" && Ascii.eqb c "0"%char then ("", S k)
      else (String c t, k)
  end.

(** [repr] of a float: positional notation when the decimal point falls
    in [-4 < decpt <= 16], exponent notation otherwise; a positional
    integer gets [.0] appended. *)
Definition float_repr (f : pyfloat) : string :=
  let sign := if fneg f then "-" else "" in
  if (fmant f =? 0)%N then sign ++ "0.0"
  else
    let (digits, dropped) := strip_zeros (NilZero.string_of_uint (N.to_uint (fmant f))) in
    let n := Z.of_nat (String.length digits) in
    let decpt := n + Z.of_nat dropped + fexp f in
    if (-4 <? decpt) && (decpt <=? 16) then
      if decpt <=? 0 then sign ++ "0." ++ zeros (Z.to_nat (- decpt)) ++ digits
      else if n <=? decpt then sign ++ digits ++ zeros (Z.to_nat (decpt - n)) ++ ".0"
      else sign ++ String.substring 0 (Z.to_nat decpt) digits ++ "."
                ++ String.substring (Z.to_nat decpt) (Z.to_nat (n - decpt)) digits
    else
      let e := decpt - 1 in
      let etext := str_of_Z (Z.abs e) in
      sign ++ String.substring 0 1 digits
           ++ (if n =? 1 then "" else "." ++ String.substring 1 (Z.to_nat (n - 1)) digits)
           ++ "e" ++ (if e <? 0 then "-" else "+")
           ++ (if Z.abs e <? 10 then "0" else "") ++ etext.

(** [sorted(d.items())] on the key; the sort is stable. *)
Fixpoint insert_item {A : Type} (kv : string * A) (l : list (string * A))
  : list (string * A) :=
  match l with
  | [] => [kv]
  | x :: l' =>
      if String.leb (fst kv) (fst x) then kv :: x :: l' else x :: insert_item kv l'
  end.

Fixpoint sort_items {A : Type} (l : list (string * A)) : list (string * A) :=
  match l with
  | [] => []
  | kv :: l' => insert_item kv (sort_items l')
  end.

Definition json_member (kv : string * string) : string :=
  json_string (fst kv) ++ ": " ++ snd kv.

Fixpoint json_dumps (v : value) : string :=
  match v with
  | VNone => "null"
  | VBool b => if b then "true" else "false"
  | VInt z => str_of_Z z
  | VFloat f => float_repr f
  | VStr s => json_string s
  | VList l => "[" ++ String.concat ", " (map json_dumps l) ++ "]"
  | VDict d =>
      "{" ++ String.concat ", "
               (map json_member
                  (sort_items (map (fun kv => (fst kv, json_dumps (snd kv))) d)))
          ++ "}"
  end.

(** [s.encode()]: UTF-8 of the code points. *)
Definition utf8_char (c : ascii) : list Z :=
  let n := Z.of_N (N_of_ascii c) in
  if n <? 128 then [n]
  else [Z.lor 192 (Z.shiftr n 6); Z.lor 128 (Z.land n 63)].

Fixpoint utf8_encode (s : string) : list Z :=
  match s with
  | EmptyString => []
  | String c s' => utf8_char c ++ utf8_encode s'
  end.

(** *** [hashlib.md5(data).hexdigest()] (RFC 1321), on 32-bit words in [Z] *)

Definition md5_K : list Z :=
  [
    0xd76aa478; 0xe8c7b756; 0x242070db; 0xc1bdceee;
    0xf57c0faf; 0x4787c62a; 0xa8304613; 0xfd469501;
    0x698098d8; 0x8b44f7af; 0xffff5bb1; 0x895cd7be;
    0x6b901122; 0xfd987193; 0xa679438e; 0x49b40821;
    0xf61e2562; 0xc040b340; 0x265e5a51; 0xe9b6c7aa;
    0xd62f105d; 0x02441453; 0xd8a1e681; 0xe7d3fbc8;
    0x21e1cde6; 0xc33707d6; 0xf4d50d87; 0x455a14ed;
    0xa9e3e905; 0xfcefa3f8; 0x676f02d9; 0x8d2a4c8a;
    0xfffa3942; 0x8771f681; 0x6d9d6122; 0xfde5380c;
    0xa4beea44; 0x4bdecfa9; 0xf6bb4b60; 0xbebfbc70;
    0x289b7ec6; 0xeaa127fa; 0xd4ef3085; 0x04881d05;
    0xd9d4d039; 0xe6db99e5; 0x1fa27cf8; 0xc4ac5665;
    0xf4292244; 0x432aff97; 0xab9423a7; 0xfc93a039;
    0x655b59c3; 0x8f0ccc92; 0xffeff47d; 0x85845dd1;
    0x6fa87e4f; 0xfe2ce6e0; 0xa3014314; 0x4e0811a1;
    0xf7537e82; 0xbd3af235; 0x2ad7d2bb; 0xeb86d391
  ].

Definition md5_S : list Z :=
  [
    7; 12; 17; 22; 7; 12; 17; 22; 7; 12; 17; 22; 7; 12; 17; 22;
    5; 9; 14; 20; 5; 9; 14; 20; 5; 9; 14; 20; 5; 9; 14; 20;
    4; 11; 16; 23; 4; 11; 16; 23; 4; 11; 16; 23; 4; 11; 16; 23;
    6; 10; 15; 21; 6; 10; 15; 21; 6; 10; 15; 21; 6; 10; 15; 21
  ].

Definition mask32 (x : Z) : Z := Z.land x 0xffffffff.
Definition not32 (x : Z) : Z := Z.lxor x 0xffffffff.
Definition rotl32 (x c : Z) : Z :=
  mask32 (Z.lor (Z.shiftl x c) (Z.shiftr x (32 - c))).

(** [n] bytes of [x], least significant first. *)
Fixpoint le_bytes (n : nat) (x : Z) : list Z :=
  match n with
  | O => []
  | S n' => Z.land x 255 :: le_bytes n' (Z.shiftr x 8)
  end.

Fixpoint le_words (bytes : list Z) : list Z :=
  match bytes with
  | b0 :: b1 :: b2 :: b3 :: rest =>
      (b0 + Z.shiftl b1 8 + Z.shiftl b2 16 + Z.shiftl b3 24) :: le_words rest
  | _ => []
  end.

Definition md5_pad (msg : list Z) : list Z :=
  let len := Z.of_nat (List.length msg) in
  msg ++ [128] ++ repeat 0 (Z.to_nat ((55 - len) mod 64))
      ++ le_bytes 8 (Z.land (8 * len) 0xffffffffffffffff).

Definition md5_state : Type := (Z * Z * Z * Z)%type.

Definition md5_step (M : list Z) (st : md5_state) (i : nat) : md5_state :=
  let '(a, b, c, d) := st in
  let iz := Z.of_nat i in
  let '(f, g) :=
    if iz <? 16 then (Z.lor (Z.land b c) (Z.land (not32 b) d), iz)
    else if iz <? 32 then (Z.lor (Z.land d b) (Z.land (not32 d) c), (5 * iz + 1) mod 16)
    else if iz <? 48 then (Z.lxor (Z.lxor b c) d, (3 * iz + 5) mod 16)
    else (Z.lxor c (Z.lor b (not32 d)), (7 * iz) mod 16) in
  let f' := mask32 (f + a + nth i md5_K 0 + nth (Z.to_nat g) M 0) in
  (d, mask32 (b + rotl32 f' (nth i md5_S 0)), b, c).

Definition md5_block (st : md5_state) (M : list Z) : md5_state :=
  let '(a0, b0, c0, d0) := st in
  let '(a, b, c, d) := fold_left (md5_step M) (seq 0 64) st in
  (mask32 (a0 + a), mask32 (b0 + b), mask32 (c0 + c), mask32 (d0 + d)).

(** The 16-word blocks of a word list; [n] bounds their number. *)
Fixpoint md5_blocks (n : nat) (st : md5_state) (words : list Z) : md5_state :=
  match n with
  | O => st
  | S n' =>
      match words with
      | [] => st
      | _ => md5_blocks n' (md5_block st (firstn 16 words)) (skipn 16 words)
      end
  end.

Definition md5 (msg : list Z) : list Z :=
  let words := le_words (md5_pad msg) in
  let '(a, b, c, d) :=
    md5_blocks (List.length words)
      (0x67452301, 0xefcdab89, 0x98badcfe, 0x10325476) words in
  le_bytes 4 a ++ le_bytes 4 b ++ le_bytes 4 c ++ le_bytes 4 d.

Definition hex_byte (b : Z) : string :=
  hex_digit (Z.to_N (b / 16)) ++ hex_digit (Z.to_N (b mod 16)).

Definition hexdigest (bytes : list Z) : string :=
  String.concat "" (map hex_byte bytes).

(** *** Text helpers and the date library *)

(** [s.replace(old, new)] for a one-character [old]. *)
Fixpoint str_replace (old : ascii) (new : string) (s : string) : string :=
  match s with
  | EmptyString => ""
  | String c s' =>
      (if Ascii.eqb c old then new else String c "") ++ str_replace old new s'
  end.

(** The standard-library calls made by [parse_fulcrum_date], taken as
    parameters: which texts they accept depends on the interpreter.
    [fromisoformat] and [float] raise [ValueError] on text they reject;
    [fromtimestamp] raises [ValueError], [OSError] or [OverflowError] on a
    number it cannot convert. *)
Record DatetimeLib : Type := mkDatetimeLib {
  datetime : Type;
  real : Type;
  fromisoformat : string -> result datetime;
  float_of_str : string -> result real;
  truediv : real -> Z -> real;
  fromtimestamp : real -> result datetime
}.

(** *** Ordering operators, membership and type names *)

Inductive cmp_op : Type := OpLt | OpLe | OpGt | OpGe.

Definition cmp_holds (op : cmp_op) (c : comparison) : bool :=
  match op, c with
  | OpLt, Lt | OpLe, Lt | OpLe, Eq | OpGt, Gt | OpGe, Gt | OpGe, Eq => true
  | _, _ => false
  end.

(** [a < b], [a <= b], [a > b], [a >= b].  Lists compare at their first
    pair of unequal elements, with the same operator, or by length when
    one is a prefix of the other. *)
Fixpoint py_richcmp (op : cmp_op) (a b : value) {struct a} : result bool :=
  match a with
  | VStr s =>
      match b with
      | VStr t => Ok (cmp_holds op (String.compare s t))
      | _ => Raise TypeError
      end
  | VList la =>
      match b with
      | VList lb =>
          (fix go (xs ys : list value) {struct xs} : result bool :=
             match xs, ys with
             | [], [] => Ok (cmp_holds op Eq)
             | [], _ :: _ => Ok (cmp_holds op Lt)
             | _ :: _, [] => Ok (cmp_holds op Gt)
             | x :: xs', y :: ys' =>
                 if py_eq x y then go xs' ys' else py_richcmp op x y
             end) la lb
      | _ => Raise TypeError
      end
  | VBool _ | VInt _ | VFloat _ =>
      match as_num a, as_num b with
      | Some x, Some y => Ok (cmp_holds op (num_compare x y))
      | _, _ => Raise TypeError
      end
  | VNone | VDict _ => Raise TypeError
  end.

(** [sub in s] between two strings. *)
Fixpoint str_contains (sub s : string) : bool :=
  String.prefix sub s
  || match s with
     | EmptyString => false
     | String _ s' => str_contains sub s'
     end.

(** [item in container].  A mapping looks the item up among its keys (and
    must hash it first), a list compares it with its elements, a string
    searches for it as text and accepts only text; nothing else is
    iterable. *)
Definition py_in (item container : value) : result bool :=
  match container with
  | VDict d =>
      if negb (hashable item) then Raise TypeError
      else match item with
           | VStr k => Ok (match dict_lookup d k with Some _ => true | None => false end)
           | _ => Ok false
           end
  | VList l => Ok (existsb (fun e => py_eq e item) l)
  | VStr s =>
      match item with
      | VStr sub => Ok (str_contains sub s)
      | _ => Raise TypeError
      end
  | _ => Raise TypeError
  end.

(** [type(v).__name__]. *)
Definition type_name (v : value) : string :=
  match v with
  | VNone => "NoneType"
  | VBool _ => "bool"
  | VInt _ => "int"
  | VFloat _ => "float"
  | VStr _ => "str"
  | VList _ => "list"
  | VDict _ => "dict"
  end.

(** *** More text operations *)

(** [s.strip(chars)]: leading and trailing characters of [chars] go. *)
Fixpoint in_chars (c : ascii) (chars : string) : bool :=
  match chars with
  | EmptyString => false
  | String c' chars' => Ascii.eqb c c' || in_chars c chars'
  end.

Fixpoint str_lstrip (chars s : string) : string :=
  match s with
  | EmptyString => ""
  | String c s' => if in_chars c chars then str_lstrip chars s' else s
  end.

Fixpoint str_rstrip (chars s : string) : string :=
  match s with
  | EmptyString => ""
  | String c s' =>
      let r := str_rstrip chars s' in
      if String.eqb r "" && in_chars c chars then "" else String c r
  end.

Definition str_strip (chars s : string) : string :=
  str_rstrip chars (str_lstrip chars s).

(** [s[:n]] and [s[n:]] for a non-negative [n]. *)
Fixpoint str_take (n : nat) (s : string) : string :=
  match n, s with
  | S n', String c s' => String c (str_take n' s')
  | _, _ => ""
  end.

Fixpoint str_drop (n : nat) (s : string) : string :=
  match n, s with
  | S n', String _ s' => str_drop n' s'
  | _, _ => s
  end.

(** [", ".join(parts)] and its like. *)
Definition str_join (sep : string) (parts : list string) : string :=
  String.concat sep parts.

(** [sorted(names)] for a list of distinct strings. *)
Definition sorted_strings (names : list string) : list string :=
  map fst (sort_items (map (fun k => (k, tt)) names)).

(** The class [[a-zA-Z0-9\-_]] of the token pattern. *)
Definition is_token_char (c : ascii) : bool :=
  let n := N_of_ascii c in
  (((97 <=? n) && (n <=? 122)) || ((65 <=? n) && (n <=? 90))
   || ((48 <=? n) && (n <=? 57)) || (n =? 45) || (n =? 95))%N.

(** [re.match(r'^[a-zA-Z0-9\-_]+$', s) is not None].  The class is taken
    one or more times; [$] matches at the end of the text and also just
    before a newline that ends the text. *)
Fixpoint token_re_rest (s : string) : bool :=
  match s with
  | EmptyString => true
  | String c s' =>
      if is_token_char c then token_re_rest s'
      else (N_of_ascii c =? 10)%N && String.eqb s' ""
  end.

Definition token_re_match (s : string) : bool :=
  match s with
  | EmptyString => false
  | String c s' => is_token_char c && token_re_rest s'
  end.

End Py.

Import Py.

(** ** The utilities *)

Module FulcrumUtilities.

(** [paginate_records(records, page_size)]:
<<
    pages = []
    for i in range(0, len(records), page_size):
        pages.append(records[i:i + page_size])
    return pages
>> *)
Definition paginate_records {A : Type} (records : list A) (page_size : Z)
  : result (list (list A)) :=
  idx <- py_range 0 (Z.of_nat (List.length records)) page_size ;;
  Ok (map (fun i => py_slice records i (i + page_size)) idx).

(** [flatten_nested_dict(data, parent_key='', sep='_')].

    The method is a [@staticmethod] of the class, and its two inner calls
    are written [flatten_nested_dict(...)], a free name.  The body is first
    given for an arbitrary resolution [callee] of that name. *)
Section FlattenBody.

Variable callee : dict -> string -> string -> result dict.

(** The loop [for i, item in enumerate(v)] over a list value; [items] is
    the list being extended.  The index is joined with a literal
    underscore, not with [sep]. *)
Fixpoint flatten_list (new_key sep : string) (i : Z) (v : list value)
         (items : list (string * value)) : result (list (string * value)) :=
  match v with
  | [] => Ok items
  | item :: rest =>
      match item with
      | VDict d =>
          sub <- callee d (new_key ++ "_" ++ str_of_Z i) sep ;;
          flatten_list new_key sep (i + 1) rest (items ++ sub)
      | _ =>
          flatten_list new_key sep (i + 1) rest
            (items ++ [(new_key ++ "_" ++ str_of_Z i, item)])
      end
  end.

(** The loop [for k, v in data.items()]. *)
Fixpoint flatten_items (data : dict) (parent_key sep : string)
         (items : list (string * value)) : result (list (string * value)) :=
  match data with
  | [] => Ok items
  | (k, v) :: rest =>
      let new_key :=
        if truthy (VStr parent_key) then parent_key ++ sep ++ k else k in
      match v with
      | VDict d =>
          sub <- callee d new_key sep ;;
          flatten_items rest parent_key sep (items ++ sub)
      | VList l =>
          items' <- flatten_list new_key sep 0 l items ;;
          flatten_items rest parent_key sep items'
      | _ => flatten_items rest parent_key sep (items ++ [(new_key, v)])
      end
  end.

Definition flatten_body (data : dict) (parent_key sep : string) : result dict :=
  items <- flatten_items data parent_key sep [] ;;
  Ok (dict_of_items items).

End FlattenBody.

(** A free name in a method body is looked up in the function's locals, the
    module globals and the builtins; the class namespace is not searched.
    The module binds [flatten_nested_dict] nowhere outside the class, so
    evaluating the name raises [NameError] before any argument is used. *)
Definition unbound_global (name : string) : dict -> string -> string -> result dict :=
  fun _ _ _ => Raise (NameError name).

Definition flatten_nested_dict (data : dict) (parent_key sep : string) : result dict :=
  flatten_body (unbound_global "flatten_nested_dict") data parent_key sep.

(** [merge_records(records, merge_key='id')]: one turn of the loop over
    [records], on the dictionary [merged].
<<
    key = record.get(merge_key)
    if not key: continue
    if key not in merged: merged[key] = record
    else:
        current_updated = merged[key].get('_updated_at', '')
        new_updated = record.get('_updated_at', '')
        if new_updated > current_updated: merged[key] = record
>> *)
Definition merge_step (merge_key : string) (merged : list (value * dict))
           (record : dict) : result (list (value * dict)) :=
  let key := dict_get record merge_key in
  if negb (truthy key) then Ok merged
  else if negb (hashable key) then Raise TypeError
  else
    match vdict_lookup merged key with
    | None => Ok (vdict_set merged key record)
    | Some current =>
        let current_updated := dict_get_default current "_updated_at" (VStr "") in
        let new_updated := dict_get_default record "_updated_at" (VStr "") in
        newer <- py_gt new_updated current_updated ;;
        if (newer : bool) then Ok (vdict_set merged key record) else Ok merged
    end.

Fixpoint merge_loop (merge_key : string) (merged : list (value * dict))
         (records : list dict) : result (list (value * dict)) :=
  match records with
  | [] => Ok merged
  | record :: rest =>
      merged' <- merge_step merge_key merged record ;;
      merge_loop merge_key merged' rest
  end.

(** The method returns [list(merged.values())] and calls the logger
    nowhere. *)
Definition merge_records (records : list dict) (merge_key : string)
  : logged (list dict) :=
  silent (merged <- merge_loop merge_key [] records ;;
          Ok (vdict_values merged)).

(** [calculate_record_hash(record)]:
<<
    record_str = json.dumps(record, sort_keys=True, default=str)
    return hashlib.md5(record_str.encode()).hexdigest()
>> *)
Definition calculate_record_hash (record : dict) : string :=
  let record_str := json_dumps (VDict record) in
  hexdigest (md5 (utf8_encode record_str)).

(** [parse_fulcrum_date(date_string)], on text as the annotation says:
<<
    if not date_string:
        return None
    try:
        return datetime.fromisoformat(date_string.replace('Z', '+00:00'))
    except ValueError:
        try:
            timestamp = float(date_string) / 1000
            return datetime.fromtimestamp(timestamp)
        except (ValueError, OSError):
            logger.warning(f"Could not parse date: {date_string}")
            return None
>> *)
Definition parse_fulcrum_date (L : DatetimeLib) (date_string : string)
  : logged (option (datetime L)) :=
  if negb (truthy (VStr date_string)) then (Ok None, [])
  else
    match fromisoformat L (str_replace "Z"%char "+00:00" date_string) with
    | Ok dt => (Ok (Some dt), [])
    | Raise ValueError =>
        match (timestamp <- (x <- float_of_str L date_string ;;
                             Ok (truediv L x 1000)) ;;
               fromtimestamp L timestamp) with
        | Ok dt => (Ok (Some dt), [])
        | Raise ValueError | Raise OSError =>
            (Ok None, ["Could not parse date: " ++ date_string])
        | Raise e => (Raise e, [])
        end
    | Raise e => (Raise e, [])
    end.

(** [validate_api_token(token)]:
<<
    if not token: return False
    if len(token) < 20: return False
    valid_chars = re.match(r'^[a-zA-Z0-9\-_]+$', token)
    return valid_chars is not None
>> *)
Definition validate_api_token (token : string) : bool :=
  if negb (truthy (VStr token)) then false
  else if (String.length token <? 20)%nat then false
  else token_re_match token.

(** [sanitize_filename(filename)], where [invalid_chars] holds the nine
    characters less-than, greater-than, colon, double quote, slash,
    backslash, bar, question mark and star:
<<
    for char in invalid_chars:
        filename = filename.replace(char, '_')
    filename = filename.strip(' .')
    if len(filename) > 200:
        filename = filename[:200]
    return filename
>> *)
Definition invalid_chars : string := "<>:" ++ dquote ++ "/\|?*".

Definition sanitize_filename (filename : string) : string :=
  let filename :=
    fold_left (fun f char => str_replace char "_" f)
              (list_ascii_of_string invalid_chars) filename in
  let filename := str_strip " ." filename in
  if (200 <? String.length filename)%nat then str_take 200 filename
  else filename.

(** [extract_form_values(record)]:
<<
    if 'form_values' in record:
        return record['form_values']
    elif 'record' in record and 'form_values' in record['record']:
        return record['record']['form_values']
    else:
        return {}
>>
    The inner subscript finds the key in a mapping; text and lists take
    integer subscripts only and raise [TypeError]. *)
Definition extract_form_values (record : dict) : result value :=
  match dict_lookup record "form_values" with
  | Some form_values => Ok form_values
  | None =>
      match dict_lookup record "record" with
      | Some inner =>
          present <- py_in (VStr "form_values") inner ;;
          if (present : bool) then
            match inner with
            | VDict d => Ok (dict_get d "form_values")
            | _ => Raise TypeError
            end
          else Ok (VDict [])
      | None => Ok (VDict [])
      end
  end.

(** [filter_records_by_field(records, field, value, operator='==')]: the
    test that one of the branches applies to [record.get(field)].  An
    operator that no branch names keeps nothing. *)
Definition filter_test (operator : string) (record_value value : value)
  : result bool :=
  if String.eqb operator "==" then Ok (py_eq record_value value)
  else if String.eqb operator "!=" then Ok (negb (py_eq record_value value))
  else if String.eqb operator ">" then py_richcmp OpGt record_value value
  else if String.eqb operator "<" then py_richcmp OpLt record_value value
  else if String.eqb operator ">=" then py_richcmp OpGe record_value value
  else if String.eqb operator "<=" then py_richcmp OpLe record_value value
  else if String.eqb operator "in" then py_in record_value value
  else if String.eqb operator "contains" then
    match record_value with
    | VStr _ => py_in value record_value
    | _ => Ok false
    end
  else if String.eqb operator "not_contains" then
    match record_value with
    | VStr _ => present <- py_in value record_value ;; Ok (negb present)
    | _ => Ok false
    end
  else Ok false.

(** The loop over [records]; [filtered] is the list being appended to. *)
Fixpoint filter_loop (field : string) (value : value) (operator : string)
         (records filtered : list dict) : result (list dict) :=
  match records with
  | [] => Ok filtered
  | record :: rest =>
      keep <- filter_test operator (dict_get record field) value ;;
      filter_loop field value operator rest
        (if (keep : bool) then (filtered ++ [record])%list else filtered)
  end.

Definition filter_records_by_field (records : list dict) (field : string)
           (value : value) (operator : string) : result (list dict) :=
  filter_loop field value operator records [].

(** The field names of all records, each once.  The source collects them
    in a [set], whose iteration order is not fixed; here they stand in
    order of first occurrence, and the statements do not depend on it. *)
Definition all_fields (records : list dict) : list string :=
  fold_left
    (fun fields record =>
       fold_left (fun fields k =>
                    if existsb (String.eqb k) fields then fields
                    else (fields ++ [k])%list)
                 (map fst record) fields)
    records [].

(** [create_field_mapping(records, custom_names=None)]:
<<
    if not records: return {}
    ...
    for field in all_fields:
        clean_name = field
        if field.startswith('_'):
            clean_name = field[1:]
        if custom_names and field in custom_names:
            clean_name = custom_names[field]
        mapping[field] = clean_name
    return mapping
>> *)
Definition clean_name (custom_names : option (list (string * string)))
           (field : string) : string :=
  let clean_name := if String.prefix "_" field then str_drop 1 field else field in
  match custom_names with
  | Some names =>
      match names, dict_lookup names field with
      | _ :: _, Some name => name
      | _, _ => clean_name
      end
  | None => clean_name
  end.

Definition create_field_mapping (records : list dict)
           (custom_names : option (list (string * string)))
  : list (string * string) :=
  match records with
  | [] => []
  | _ =>
      fold_left (fun mapping field =>
                   dict_set mapping field (clean_name custom_names field))
                (all_fields records) []
  end.

(** The dictionary that [validate_record_structure] returns. *)
Record validation : Type := mkValidation {
  is_valid : bool;
  missing_fields : list string;
  empty_fields : list string;
  field_types : list (string * string);
  warnings : list string
}.

(** The loop over [required_fields]:
<<
    if field not in record:
        results['missing_fields'].append(field)
        results['is_valid'] = False
    elif record[field] is None or record[field] == '':
        results['empty_fields'].append(field)
>> *)
Fixpoint check_required (record : dict) (required_fields : list string)
         (results : validation) : validation :=
  match required_fields with
  | [] => results
  | field :: rest =>
      check_required record rest
        match dict_lookup record field with
        | None =>
            mkValidation false (missing_fields results ++ [field])%list
                         (empty_fields results) (field_types results)
                         (warnings results)
        | Some v =>
            if (match v with VNone => true | _ => false end) || py_eq v (VStr "")
            then mkValidation (is_valid results) (missing_fields results)
                              (empty_fields results ++ [field])%list
                              (field_types results) (warnings results)
            else results
        end
  end.

(** The loop over [record.items()] that records the type names. *)
Definition check_types (record : dict) (results : validation) : validation :=
  fold_left
    (fun results kv =>
       match snd kv with
       | VNone => results
       | v => mkValidation (is_valid results) (missing_fields results)
                           (empty_fields results)
                           (dict_set (field_types results) (fst kv) (type_name v))
                           (warnings results)
       end)
    record results.

Definition validate_record_structure (record : dict)
           (required_fields : list string) : validation :=
  let results := mkValidation true [] [] [] [] in
  let results := check_required record required_fields results in
  let results := check_types record results in
  match empty_fields results with
  | [] => results
  | _ =>
      mkValidation (is_valid results) (missing_fields results)
                   (empty_fields results) (field_types results)
                   (warnings results
                    ++ [("Empty required fields: "
                         ++ str_join ", " (empty_fields results))%string])%list
  end.

(** [export_records_to_csv]: the header.
<<
    all_fields = set()
    for record in records:
        all_fields.update(record.keys())
    if field_mapping:
        all_fields = {field_mapping.get(field, field) for field in all_fields}
    sorted_fields = sorted(all_fields)
>> *)
Definition map_field (field_mapping : list (string * string)) (field : string)
  : string :=
  match dict_lookup field_mapping field with
  | Some name => name
  | None => field
  end.

Definition dedup_strings (names : list string) : list string :=
  fold_left (fun seen k => if existsb (String.eqb k) seen then seen
                           else (seen ++ [k])%list) names [].

Definition sorted_fields (records : list dict)
           (field_mapping : option (list (string * string))) : list string :=
  let fields := all_fields records in
  let fields :=
    match field_mapping with
    | Some (e :: m) => dedup_strings (map (map_field (e :: m)) fields)
    | _ => fields
    end in
  sorted_strings fields.

(** [export_records_to_csv]: the row written for one record.
<<
    if field_mapping:
        mapped_record = {}
        for key, value in record.items():
            mapped_key = field_mapping.get(key, key)
            mapped_record[mapped_key] = value
        writer.writerow(mapped_record)
    else:
        writer.writerow(record)
>> *)
Definition mapped_record (record : dict)
           (field_mapping : option (list (string * string))) : dict :=
  match field_mapping with
  | Some (e :: m) =>
      fold_left (fun row kv => dict_set row (map_field (e :: m) (fst kv)) (snd kv))
                record []
  | _ => record
  end.

End FulcrumUtilities.

Import FulcrumUtilities.

(** ** A date library to run the statements on

    An instance of [DatetimeLib] for a 64-bit Linux platform whose local
    zone is UTC.  It reads a fragment of the texts that the interpreter
    reads: as ISO-8601 the forms [YYYY-MM-DDTHH:MM:SS+00:00] (what a
    trailing [Z] becomes after the replacement), [YYYY-MM-DD] and
    [YYYYMMDD]; as a float a string of decimal digits and the word [inf].
    Every other text is refused.  A float is its binary64 value; a
    datetime is the instant it denotes, in whole milliseconds since the
    epoch. *)

Module SampleLib.

(** A float that is not negative: a binary64 value, or the infinity. *)
Inductive sreal : Type :=
| Fin (x : num)
| Inf.

(** A rounded value beyond the largest double is the infinity. *)
Definition to_float (x : num) : sreal :=
  if 2 ^ 1024 <=? fst x * 2 ^ snd x then Inf else Fin x.

Definition digit_of (c : ascii) : option Z :=
  let n := Z.of_N (N_of_ascii c) in
  if (48 <=? n) && (n <=? 57) then Some (n - 48) else None.

Fixpoint digits_acc (acc : Z) (s : string) : option Z :=
  match s with
  | EmptyString => Some acc
  | String c s' =>
      match digit_of c with
      | Some d => digits_acc (10 * acc + d) s'
      | None => None
      end
  end.

(** The number written by a non-empty string of decimal digits. *)
Definition digits_value (s : string) : option Z :=
  match s with
  | EmptyString => None
  | _ => digits_acc 0 s
  end.

Definition is_leap (y : Z) : bool :=
  ((y mod 4 =? 0) && negb (y mod 100 =? 0)) || (y mod 400 =? 0).

Definition days_in_month (y m : Z) : Z :=
  if m =? 2 then (if is_leap y then 29 else 28)
  else if (m =? 4) || (m =? 6) || (m =? 9) || (m =? 11) then 30 else 31.

(** Days from 1970-01-01 to the given civil date. *)
Definition days_from_civil (y m d : Z) : Z :=
  let y' := if m <=? 2 then y - 1 else y in
  let era := y' / 400 in
  let yoe := y' - era * 400 in
  let doy := (153 * (if 2 <? m then m - 3 else m + 9) + 2) / 5 + d - 1 in
  let doe := yoe * 365 + yoe / 4 - yoe / 100 + doy in
  era * 146097 + doe - 719468.

Definition field (s : string) (start len : nat) : option Z :=
  digits_value (String.substring start len s).

Definition valid_date (y mo d : Z) : bool :=
  (1 <=? y) && (1 <=? mo) && (mo <=? 12) && (1 <=? d) && (d <=? days_in_month y mo).

(** Midnight of a date written [YYYY-MM-DD] or [YYYYMMDD]. *)
Definition sample_date (s : string) (month day : nat) : result Z :=
  match field s 0 4, field s month 2, field s day 2 with
  | Some y, Some mo, Some d =>
      if valid_date y mo d then Ok (days_from_civil y mo d * 86400000)
      else Raise ValueError
  | _, _, _ => Raise ValueError
  end.

Definition sample_fromisoformat (s : string) : result Z :=
  if (String.length s =? 8)%nat then sample_date s 4 6
  else if (String.length s =? 10)%nat then
    if String.eqb (String.substring 4 1 s) "-"
       && String.eqb (String.substring 7 1 s) "-"
    then sample_date s 5 8 else Raise ValueError
  else
  match field s 0 4, field s 5 2, field s 8 2,
        field s 11 2, field s 14 2, field s 17 2 with
  | Some y, Some mo, Some d, Some h, Some mi, Some sec =>
      if (String.length s =? 25)%nat
         && String.eqb (String.substring 4 1 s) "-"
         && String.eqb (String.substring 7 1 s) "-"
         && String.eqb (String.substring 10 1 s) "T"
         && String.eqb (String.substring 13 1 s) ":"
         && String.eqb (String.substring 16 1 s) ":"
         && String.eqb (String.substring 19 6 s) "+00:00"
         && valid_date y mo d
         && (h <? 24) && (mi <? 60) && (sec <? 60)
      then Ok (((days_from_civil y mo d * 24 + h) * 60 + mi) * 60000 + sec * 1000)
      else Raise ValueError
  | _, _, _, _, _, _ => Raise ValueError
  end.

(** [float(s)]: the double nearest to the number written. *)
Definition sample_float (s : string) : result sreal :=
  if String.eqb s "inf" then Ok Inf
  else match digits_value s with
       | Some n => Ok (to_float (binary64_round n 1))
       | None => Raise ValueError
       end.

(** [x / d] for a positive integer [d]: the double nearest to the
    quotient. *)
Definition sample_truediv (x : sreal) (d : Z) : sreal :=
  match x with
  | Fin x =>
      to_float (binary64_round (fst x * 2 ^ Z.max (snd x) 0)
                               (d * 2 ^ Z.max (- snd x) 0))
  | Inf => Inf
  end.

(** [datetime.fromtimestamp(x)].  The fraction of the second, times a
    million, is rounded to a double and then to the nearest microsecond,
    ties to even.  Seconds beyond [2^63] do not fit [time_t] and are an
    [OverflowError]; a year that does not fit the C calendar (from the
    year 2147485548 on) is an [OSError]; a year after 9999 is a
    [ValueError]. *)
Definition sample_fromtimestamp (x : sreal) : result Z :=
  match x with
  | Inf => Raise OverflowError
  | Fin x =>
      let n := fst x * 2 ^ Z.max (snd x) 0 in
      let d := 2 ^ Z.max (- snd x) 0 in
      let scaled := binary64_round ((n mod d) * 1000000) d in
      let micro := round_half_even (fst scaled * 2 ^ Z.max (snd scaled) 0)
                                   (2 ^ Z.max (- snd scaled) 0) in
      let us := (n / d) * 1000000 + micro in
      let seconds := us / 1000000 in
      if 2 ^ 63 <? seconds then Raise OverflowError
      else if days_from_civil 2147485548 1 1 * 86400 <=? seconds then Raise OSError
      else if days_from_civil 10000 1 1 * 86400 <=? seconds then Raise ValueError
      else Ok (us / 1000)
  end.

Definition lib : DatetimeLib :=
  mkDatetimeLib Z sreal sample_fromisoformat sample_float
                sample_truediv sample_fromtimestamp.

End SampleLib.

(** ** Notions used in the statements *)

(** *** Pagination *)

(** The [k]-th page-sized piece of a list. *)
Definition chunk {A : Type} (l : list A) (p k : nat) : list A :=
  firstn p (skipn (k * p) l).

(** *** Flattening *)

Definition is_dict (v : value) : bool :=
  match v with VDict _ => true | _ => false end.

(** A scalar leaf: null, Boolean, number or string. *)
Definition is_scalar (v : value) : bool :=
  match v with VList _ | VDict _ => false | _ => true end.

(** Nesting depth: a scalar has depth 0, a container one more than its
    deepest element. *)
Fixpoint depth (v : value) : nat :=
  match v with
  | VList l => S (fold_right (fun x acc => Nat.max (depth x) acc) O l)
  | VDict d => S (fold_right (fun kv acc => Nat.max (depth (snd kv)) acc) O d)
  | _ => O
  end.

(** [v] wrapped in [n] one-element lists, and in [n] one-entry mappings. *)
Fixpoint nest_list (n : nat) (v : value) : value :=
  match n with
  | O => v
  | S n' => VList [nest_list n' v]
  end.

Fixpoint nest_dict (n : nat) (v : value) : value :=
  match n with
  | O => v
  | S n' => VDict [("a", nest_dict n' v)]
  end.

(** No entry of [data] is a mapping or a sequence with a mapping element:
    flattening [data] reaches neither inner call. *)
Definition no_mapping_entries (data : dict) : bool :=
  forallb (fun kv =>
             match snd kv with
             | VDict _ => false
             | VList l => forallb (fun x => negb (is_dict x)) l
             | _ => true
             end) data.

(** *** Merge by recency *)

(** Numeric equality, as [==] decides it between two numbers. *)
Definition num_eqb (x y : num) : bool :=
  match num_compare x y with Eq => true | _ => false end.

(** Does the record carry the identity field at all? *)
Definition has_field (k : string) (r : dict) : bool :=
  match dict_lookup r k with Some _ => true | None => false end.

(** The timestamp [merge_records] compares: the record's [_updated_at],
    or the empty string when the record has none. *)
Definition updated_at (r : dict) : value :=
  dict_get_default r "_updated_at" (VStr "").

(** That timestamp as text; the empty string when it is not text. *)
Definition stamp_text (r : dict) : string :=
  match updated_at r with VStr s => s | _ => "" end.

(** Two records belong to one identity group. *)
Definition same_identity (merge_key : string) (r1 r2 : dict) : Prop :=
  py_eq (dict_get r1 merge_key) (dict_get r2 merge_key) = true.

(** Every identity that is not skipped can be a dictionary key. *)
Definition well_keyed (merge_key : string) (records : list dict) : Prop :=
  forall r, In r records ->
            truthy (dict_get r merge_key) = true ->
            hashable (dict_get r merge_key) = true.

(** Every timestamp is text (or absent). *)
Definition text_stamped (records : list dict) : Prop :=
  forall r, In r records -> exists s, updated_at r = VStr s.

(** Within an identity group the order of the timestamp texts is the order
    of the instants that [parse] reads from them. *)
Definition order_agrees (parse : string -> Z) (merge_key : string)
           (records : list dict) : Prop :=
  forall r1 r2, In r1 records -> In r2 records ->
                same_identity merge_key r1 r2 ->
                (str_gt (stamp_text r1) (stamp_text r2) = true
                 <-> parse (stamp_text r2) < parse (stamp_text r1)).

(** [r] is the record at position [i]; no record of its group is newer,
    and every earlier record of its group is strictly older. *)
Definition first_newest (parse : string -> Z) (merge_key : string)
           (records : list dict) (i : nat) (r : dict) : Prop :=
  nth_error records i = Some r /\
  forall j r', nth_error records j = Some r' ->
               same_identity merge_key r' r ->
               parse (stamp_text r') <= parse (stamp_text r) /\
               ((j < i)%nat -> parse (stamp_text r') < parse (stamp_text r)).

(** No two keys of the list are equal under [==]. *)
Fixpoint keys_distinct (ks : list value) : Prop :=
  match ks with
  | [] => True
  | k :: ks' => (forall k', In k' ks' -> py_eq k k' = false) /\ keys_distinct ks'
  end.

(** The loop invariant of [merge_records] after the records [pre]: every
    entry of [merged] holds the first newest record of its group, under a
    key equal to that record's identity; every record that was not skipped
    has its group in [merged]; and the keys are distinct. *)
Definition entry_ok (parse : string -> Z) (merge_key : string)
           (pre : list dict) (e : value * dict) : Prop :=
  hashable (fst e) = true /\
  truthy (dict_get (snd e) merge_key) = true /\
  py_eq (fst e) (dict_get (snd e) merge_key) = true /\
  exists i, first_newest parse merge_key pre i (snd e).

Definition merge_inv (parse : string -> Z) (merge_key : string)
           (pre : list dict) (merged : list (value * dict)) : Prop :=
  Forall (entry_ok parse merge_key pre) merged /\
  (forall r, In r pre -> truthy (dict_get r merge_key) = true ->
             exists e, In e merged /\ py_eq (fst e) (dict_get r merge_key) = true) /\
  keys_distinct (map fst merged).

(** The instant that [parse_fulcrum_date] reads from a timestamp text with
    the sample date library; 0 when it reads none. *)
Definition sample_instant (s : string) : Z :=
  match fst (parse_fulcrum_date SampleLib.lib s) with
  | Ok (Some t) => t
  | _ => 0
  end.

(** Sample records: two snapshots of identity 1, one of identity 2, and a
    record without identity. *)
Definition sample_records : list dict :=
  [ [("id", VStr "1"); ("_updated_at", VStr "2024-01-01T00:00:00Z"); ("v", VInt 1)];
    [("id", VStr "1"); ("_updated_at", VStr "2024-02-01T00:00:00Z"); ("v", VInt 2)];
    [("id", VStr "2"); ("_updated_at", VStr "2024-01-15T00:00:00Z"); ("v", VInt 3)];
    [("v", VInt 4)] ].

(** *** Content hash *)

(** Well-formed values: the keys of every mapping are pairwise distinct. *)
Fixpoint wf_value (v : value) : Prop :=
  match v with
  | VList l => fold_right (fun x acc => wf_value x /\ acc) True l
  | VDict d =>
      NoDup (map fst d) /\
      fold_right (fun kv acc => wf_value (snd kv) /\ acc) True d
  | _ => True
  end.

(** The same content with the entries of its mappings in another order, at
    any nesting level. *)
Inductive reorder : value -> value -> Prop :=
| reorder_same (v : value) : reorder v v
| reorder_list (l l' : list value) :
    Forall2 reorder l l' -> reorder (VList l) (VList l')
| reorder_dict (d d' d'' : dict) :
    Forall2 (fun kv kv' => fst kv = fst kv' /\ reorder (snd kv) (snd kv')) d d' ->
    Permutation d' d'' ->
    reorder (VDict d) (VDict d'').

(** *** Date parsing *)

(** The first attempt of [parse_fulcrum_date]: the text read as ISO-8601,
    a [Z] standing for the zero offset. *)
Definition iso_attempt (L : DatetimeLib) (date_string : string)
  : result (datetime L) :=
  fromisoformat L (str_replace "Z"%char "+00:00" date_string).

(** The second attempt: the text read as milliseconds since the epoch. *)
Definition epoch_attempt (L : DatetimeLib) (date_string : string)
  : result (datetime L) :=
  timestamp <- (x <- float_of_str L date_string ;; Ok (truediv L x 1000)) ;;
  fromtimestamp L timestamp.

(** *** Notions for the other utilities *)

(** *** Tokens and file names *)

(** The line feed, and the texts made of token characters only. *)
Definition newline : string := String (ascii_of_nat 10) "".

Fixpoint all_token_chars (s : string) : bool :=
  match s with
  | EmptyString => true
  | String c s' => is_token_char c && all_token_chars s'
  end.

(** No character of [chars] occurs in [s]. *)
Fixpoint free_of (chars s : string) : bool :=
  match s with
  | EmptyString => true
  | String c s' => negb (in_chars c chars) && free_of chars s'
  end.

(** [s] is empty or starts with a character outside [chars]. *)
Definition no_lead (chars s : string) : bool :=
  match s with
  | EmptyString => true
  | String c _ => negb (in_chars c chars)
  end.

(** [n] copies of a text. *)
Fixpoint str_repeat (n : nat) (s : string) : string :=
  match n with
  | O => ""
  | S n' => s ++ str_repeat n' s
  end.

(** *** Filtering *)

(** The verdict of [filter_records_by_field] on one record; a test that
    raises keeps nothing. *)
Definition filter_keeps (field : string) (value : value) (operator : string)
           (record : dict) : bool :=
  match filter_test operator (dict_get record field) value with
  | Ok keep => keep
  | Raise _ => false
  end.

(** The operators that [filter_records_by_field] has a branch for. *)
Definition filter_operators : list string :=
  ["=="; "!="; ">"; "<"; ">="; "<="; "in"; "contains"; "not_contains"].

(** Is the field of the record text that holds [sub]? *)
Definition field_contains (field sub : string) (record : dict) : bool :=
  match dict_get record field with
  | VStr s => str_contains sub s
  | _ => false
  end.

Definition field_is_text (field : string) (record : dict) : bool :=
  match dict_get record field with
  | VStr _ => true
  | _ => false
  end.

(** *** Field mapping, validation and export *)

(** A required field that is present with [None] or the empty string. *)
Definition field_blank (record : dict) (field : string) : bool :=
  match dict_lookup record field with
  | Some VNone => true
  | Some v => py_eq v (VStr "")
  | None => false
  end.

(** The step of the loops that collect names, each once. *)
Definition add_new (seen : list string) (k : string) : list string :=
  if existsb (String.eqb k) seen then seen else (seen ++ [k])%list.

(** *** Merging: identities in order of first appearance *)

(** The identities of a batch in the order in which they first appear;
    falsy identities are skipped and equal identities count once. *)
Definition first_seen_step (merge_key : string) (ks : list value) (r : dict)
  : list value :=
  let key := dict_get r merge_key in
  if negb (truthy key) then ks
  else if existsb (fun k0 => py_eq k0 key) ks then ks
       else (ks ++ [key])%list.

Definition first_seen_keys (merge_key : string) (records : list dict)
  : list value :=
  fold_left (first_seen_step merge_key) records [].

(** An entry of the merge dictionary: a hashable key, equal to the truthy
    identity of the record it holds. *)
Definition entry_keyed (merge_key : string) (e : value * dict) : Prop :=
  hashable (fst e) = true /\
  truthy (dict_get (snd e) merge_key) = true /\
  py_eq (fst e) (dict_get (snd e) merge_key) = true.

(** Case analysis on membership in a list that is written out. *)
Ltac in_cases H :=
  simpl in H;
  repeat match type of H with
         | _ \/ _ => destruct H as [<-|H]
         | False => contradiction
         end.

(** ** Checks of the embedding

    The text and digest functions agree with the interpreter on sample
    inputs, and with the test vectors of RFC 1321. *)

Example json_dumps_sample :
  json_dumps (VDict [("b", VInt 1); ("a", VFloat (mkFloat false 1 0));
                     ("c", VList [VNone; VBool true; VStr "x"])])
  = "{" ++ dquote ++ "a" ++ dquote ++ ": 1.0, "
        ++ dquote ++ "b" ++ dquote ++ ": 1, "
        ++ dquote ++ "c" ++ dquote ++ ": [null, true, "
        ++ dquote ++ "x" ++ dquote ++ "]}".
Proof. reflexivity. Qed.

Example float_repr_samples :
  map float_repr [mkFloat false 12 0; mkFloat false 15 (-6); mkFloat false 1 16;
                  mkFloat true 0 0; mkFloat false 12345 (-1)]
  = ["12.0"; "1.5e-05"; "1e+16"; "-0.0"; "1234.5"].
Proof. reflexivity. Qed.

(** The value of a float is its binary64 value: [1e23], [0.1], [5e-324],
    the largest double and [-4.35]. *)
Example float_num_samples :
  map float_num [mkFloat false 1 23; mkFloat false 1 (-1); mkFloat false 5 (-324);
                 mkFloat false 17976931348623157 292; mkFloat true 435 (-2);
                 mkFloat true 0 0]
  = [(5960464477539062, 24); (7205759403792794, -56); (1, -1074);
     (9007199254740991, 971); (-4897664594765414, -50); (0, 0)].
Proof. vm_compute. reflexivity. Qed.

(** An integer and a float are equal when their values are: [1e23] is
    [99999999999999991611392] and not [10**23], [9.223372036854776e18] is
    [2**63], and [1], [1.0] and [True] are equal. *)
Example py_eq_int_float :
  py_eq (VInt (10 ^ 23)) (VFloat (mkFloat false 1 23)) = false /\
  py_eq (VInt 99999999999999991611392) (VFloat (mkFloat false 1 23)) = true /\
  py_eq (VInt (2 ^ 63)) (VFloat (mkFloat false 9223372036854776 3)) = true /\
  py_eq (VInt (2 ^ 53 + 1)) (VFloat (mkFloat false 9007199254740992 0)) = false /\
  py_eq (VInt 1) (VFloat (mkFloat false 1 0)) = true /\
  py_eq (VBool true) (VFloat (mkFloat false 1 0)) = true /\
  py_gt (VInt (10 ^ 23)) (VFloat (mkFloat false 1 23)) = Ok true.
Proof. vm_compute. repeat split; reflexivity. Qed.

Example md5_test_vectors :
  hexdigest (md5 (utf8_encode "")) = "d41d8cd98f00b204e9800998ecf8427e" /\
  hexdigest (md5 (utf8_encode "abc")) = "900150983cd24fb0d6963f7d28e17f72" /\
  hexdigest (md5 (utf8_encode
    "12345678901234567890123456789012345678901234567890123456789012345678901234567890"))
  = "57edf4a22be3c955ac49da2e2107b67a".
Proof. repeat split; vm_compute; reflexivity. Qed.

Example sample_lib_epoch :
  SampleLib.sample_fromisoformat "2024-01-01T00:00:00+00:00" = Ok 1704067200000 /\
  SampleLib.sample_fromisoformat "2024-02-30T00:00:00+00:00" = Raise ValueError.
Proof. split; reflexivity. Qed.

(** Epoch milliseconds are read through binary64: near the year 9999 the
    quotient by 1000 is a double that is some microseconds off, and the
    three ranges beyond it end in the three errors. *)
Example sample_lib_timestamps :
  map (fun s => x <- SampleLib.sample_float s ;;
                SampleLib.sample_fromtimestamp (SampleLib.sample_truediv x 1000))
      ["1704067200123"; "253402300799999"; "253402300800000";
       "67768036191676700000"; "67768036191676800000";
       "9223372036854775807000"; "9223372036854777856000"; "inf"; "soon"]
  = [Ok 1704067200123; Ok 253402300799998; Raise ValueError;
     Raise ValueError; Raise OSError;
     Raise OSError; Raise OverflowError; Raise OverflowError; Raise ValueError] /\
  map SampleLib.sample_fromisoformat ["2024-01-01"; "20240101"; "20241301"]
  = [Ok 1704067200000; Ok 1704067200000; Raise ValueError].
Proof. split; vm_compute; reflexivity. Qed.

(** [paginate(range(250), 100)] has pages of 100, 100 and 50 records, and
    no record gives no page. *)
Example paginate_records_sizes :
  bind (paginate_records (seq 0 250) 100)
       (fun pages => Ok (map (@List.length nat) pages))
  = Ok [100; 100; 50]%nat /\
  paginate_records (@nil value) 100 = Ok [].
Proof. split; reflexivity. Qed.

(** An empty sequence contributes no key. *)
Example flatten_empty_sequence :
  flatten_nested_dict [("a", VList [])] "" "_" = Ok [].
Proof. reflexivity. Qed.

(** ** Properties *)

(** *** Pagination *)

Section Pagination.

Context {A : Type}.
Implicit Types (l : list A) (p c k : nat).

Lemma firstn_plus l (a b : nat) :
  firstn (a + b) l = (firstn a l ++ firstn b (skipn a l))%list.
Proof.
  revert l; induction a as [|a IH]; intros [|x l]; simpl; auto.
  - now rewrite firstn_nil.
  - now rewrite IH.
Qed.

(** A page is the next [page_size] records from its start. *)
Lemma py_slice_page l (i p : Z) :
  0 <= i -> 0 <= p ->
  py_slice l i (i + p) = firstn (Z.to_nat p) (skipn (Z.to_nat i) l).
Proof.
  intros Hi Hp. unfold py_slice, slice_index.
  set (len := Z.of_nat (List.length l)).
  assert (Hlen : 0 <= len) by (unfold len; lia).
  destruct (Z.ltb_spec i 0); [lia|].
  destruct (Z.ltb_spec (i + p) 0); [lia|].
  destruct (Z_le_gt_dec len i) as [Hge|Hlt].
  - rewrite (skipn_all2 l (n := Z.to_nat i)) by (unfold len in Hge; lia).
    rewrite (skipn_all2 l) by (unfold len in *; lia).
    now rewrite !firstn_nil.
  - rewrite (Z.min_l i len) by lia.
    destruct (Z_le_gt_dec (i + p) len) as [Hfit|Hover].
    + rewrite (Z.min_l (i + p) len) by lia. f_equal. lia.
    + rewrite (Z.min_r (i + p) len) by lia.
      rewrite !firstn_all2; auto; rewrite length_skipn; unfold len in *; lia.
Qed.

Lemma concat_chunks l p c :
  List.concat (map (chunk l p) (seq 0 c)) = firstn (c * p) l.
Proof.
  induction c as [|c IH].
  - reflexivity.
  - rewrite seq_S, map_app, concat_app, IH. simpl.
    rewrite app_nil_r. unfold chunk.
    replace (p + c * p)%nat with (c * p + p)%nat by lia.
    now rewrite firstn_plus.
Qed.

Lemma length_chunk l p k :
  List.length (chunk l p k) = Nat.min p (List.length l - k * p).
Proof. unfold chunk. now rewrite length_firstn, length_skipn. Qed.

(** The pages, for a positive page size, are the chunks [0 .. count-1]. *)
Lemma paginate_records_chunks l (page_size : Z) :
  1 <= page_size ->
  let n := Z.of_nat (List.length l) in
  let count := if 0 <? n then (n - 1) / page_size + 1 else 0 in
  paginate_records l page_size
  = Ok (map (chunk l (Z.to_nat page_size)) (seq 0 (Z.to_nat count))).
Proof.
  intros Hp n count. unfold paginate_records, py_range.
  destruct (Z.eqb_spec page_size 0); [lia|].
  destruct (Z.ltb_spec 0 page_size); [|lia].
  simpl. f_equal. rewrite map_map. rewrite Z.sub_0_r.
  fold n. fold count.
  apply map_ext. intros k.
  rewrite py_slice_page by nia.
  unfold chunk. do 2 f_equal. nia.
Qed.

End Pagination.

(** The number of pages covers the records, and all but the last chunk fit
    entirely. *)
Lemma page_count_bounds (n p : Z) :
  1 <= n -> 1 <= p ->
  let c := (n - 1) / p + 1 in
  (c - 1) * p < n <= c * p /\ 1 <= c.
Proof.
  intros Hn Hp c.
  pose proof (Z.div_mod (n - 1) p ltac:(lia)) as Hdm.
  pose proof (Z.mod_pos_bound (n - 1) p ltac:(lia)) as Hmod.
  assert (0 <= (n - 1) / p) by (apply Z.div_pos; lia).
  unfold c. nia.
Qed.

(** C7: for a page size of at least 1, [paginate_records] returns pages
    whose concatenation is the input in order; every page but the last has
    exactly [page_size] records; the last has between 1 and [page_size];
    and an empty input gives no page at all. *)
Theorem paginate_records_partition {A : Type} (records : list A) (page_size : Z) :
  1 <= page_size ->
  exists pages,
    paginate_records records page_size = Ok pages /\
    List.concat pages = records /\
    (forall i page, nth_error pages i = Some page ->
                    (S i < List.length pages)%nat ->
                    Z.of_nat (List.length page) = page_size) /\
    (forall page, nth_error pages (List.length pages - 1) = Some page ->
                  1 <= Z.of_nat (List.length page) <= page_size) /\
    (records = [] -> pages = []).
Proof.
  intros Hp. eexists. split; [apply paginate_records_chunks; exact Hp|].
  set (n := Z.of_nat (List.length records)).
  set (P := Z.to_nat page_size).
  destruct (Z.ltb_spec 0 n) as [Hn|Hn].
  - destruct (page_count_bounds n page_size ltac:(lia) Hp) as [[Hlo Hhi] Hc].
    set (c := (n - 1) / page_size + 1) in *.
    assert (Hnth : forall i page,
               nth_error (map (chunk records P) (seq 0 (Z.to_nat c))) i = Some page ->
               (i < Z.to_nat c)%nat /\ page = chunk records P i).
    { intros i page H.
      assert (Hi : (i < Z.to_nat c)%nat).
      { assert (Hs : nth_error (map (chunk records P) (seq 0 (Z.to_nat c))) i <> None)
          by congruence.
        apply nth_error_Some in Hs. now rewrite length_map, length_seq in Hs. }
      split; [exact Hi|].
      rewrite nth_error_map, nth_error_seq in H.
      destruct (Nat.ltb_spec i (Z.to_nat c)); [|lia].
      simpl in H. congruence. }
    repeat split.
    + rewrite concat_chunks. apply firstn_all2. unfold n, P in *. nia.
    + intros i page H Hlast. rewrite length_map, length_seq in Hlast.
      apply Hnth in H. destruct H as [_ ->]. rewrite length_chunk.
      unfold n, P in *. nia.
    + apply Hnth in H. destruct H as [Hi ->].
      rewrite length_map, length_seq in *. rewrite length_chunk.
      unfold n, P in *. nia.
    + apply Hnth in H. destruct H as [Hi ->]. rewrite length_chunk.
      unfold n, P in *. lia.
    + intros ->. simpl in n. unfold n in Hn. lia.
  - assert (records = []) as ->.
    { destruct records; [reflexivity|]. simpl in n. unfold n in Hn. lia. }
    simpl. repeat split; auto.
    + intros [|i] page H; discriminate.
    + simpl in H. discriminate.
    + simpl in H. discriminate.
Qed.

Lemma paginate_records_partition_witness :
  exists pages,
    paginate_records [VInt 1; VInt 2; VInt 3; VInt 4; VInt 5] 2 = Ok pages /\
    List.concat pages = [VInt 1; VInt 2; VInt 3; VInt 4; VInt 5] /\
    List.length pages = 3%nat.
Proof.
  destruct (paginate_records_partition
              [VInt 1; VInt 2; VInt 3; VInt 4; VInt 5] 2 ltac:(lia))
    as (pages & Hrun & Hcat & _).
  exists pages. repeat split; auto.
  vm_compute in Hrun. injection Hrun as <-. reflexivity.
Defined.

(** C6, as stated, fails: a negative page size is not rejected.  The
    [range] is empty, and the call returns an empty page list although
    there are records. *)
Lemma paginate_records_negative_counterexample :
  paginate_records [VInt 1; VInt 2; VInt 3] (-1) = Ok [].
Proof. reflexivity. Qed.

(** C6, amended: no page size is validated.  A page size of 0 fails inside
    [range] with [ValueError]; a negative page size returns the empty page
    list, whatever the records. *)
Theorem paginate_records_nonpositive {A : Type} (records : list A) (page_size : Z) :
  page_size < 1 ->
  paginate_records records page_size
  = if page_size =? 0 then Raise ValueError else Ok [].
Proof.
  intros Hp. unfold paginate_records, py_range.
  destruct (Z.eqb_spec page_size 0) as [->|Hnz]; [reflexivity|].
  destruct (Z.ltb_spec 0 page_size); [lia|].
  destruct (Z.ltb_spec (Z.of_nat (List.length records)) 0); [lia|].
  reflexivity.
Qed.

Lemma paginate_records_nonpositive_witness :
  paginate_records [VInt 1; VInt 2] 0 = Raise ValueError /\
  paginate_records [VInt 1; VInt 2] (-5) = Ok [].
Proof.
  split.
  - apply (paginate_records_nonpositive [VInt 1; VInt 2] 0). lia.
  - apply (paginate_records_nonpositive [VInt 1; VInt 2] (-5)). lia.
Defined.

(** *** Flattening *)

Section FlattenFacts.

Variable callee : dict -> string -> string -> result dict.

(** A sequence without mapping elements is unrolled into indexed keys
    without any call. *)
Lemma flatten_list_no_mapping (new_key sep : string) (v : list value) :
  forallb (fun x => negb (is_dict x)) v = true ->
  forall i items, exists items',
    flatten_list callee new_key sep i v items = Ok (items ++ items')%list.
Proof.
  induction v as [|item rest IH]; intros Hv i items; cbn [flatten_list].
  - exists []. now rewrite app_nil_r.
  - simpl in Hv. apply andb_true_iff in Hv. destruct Hv as [Hitem Hrest].
    destruct (IH Hrest (i + 1)
                 (items ++ [((new_key ++ "_" ++ str_of_Z i)%string, item)])%list)
      as [items' Hrun].
    exists ((new_key ++ "_" ++ str_of_Z i, item) :: items').
    destruct item; try discriminate Hitem;
      rewrite Hrun; now rewrite <- app_assoc.
Qed.

Lemma flatten_items_no_mapping (data : dict) (parent_key sep : string) :
  no_mapping_entries data = true ->
  forall items, exists items',
    flatten_items callee data parent_key sep items = Ok (items ++ items')%list.
Proof.
  induction data as [|[k v] rest IH]; intros Hd items; cbn [flatten_items].
  - exists []. now rewrite app_nil_r.
  - simpl in Hd. apply andb_true_iff in Hd. destruct Hd as [Hv Hrest].
    set (new_key := if truthy (VStr parent_key)
                    then parent_key ++ sep ++ k else k).
    destruct v as [ | b | z | f | s | l | d ]; try discriminate Hv;
      cbv beta iota.
    1-5: match goal with
         | |- context [flatten_items _ _ _ _ ?it] =>
             destruct (IH Hrest it) as [items' Hrun];
             exists ((new_key, snd (last it (k, VNone))) :: items');
             rewrite Hrun, <- app_assoc, last_last; reflexivity
         end.
    destruct (flatten_list_no_mapping new_key sep l Hv 0 items) as [mid Hmid].
    rewrite Hmid. cbn [bind].
    destruct (IH Hrest (items ++ mid)%list) as [items' Hrun].
    exists (mid ++ items')%list. now rewrite Hrun, app_assoc.
Qed.

End FlattenFacts.

(** An entry that is a mapping makes [flatten_nested_dict] raise
    [NameError]: the inner call names a function that the module does not
    define. *)
Lemma flatten_items_mapping_raises (k : string) (d rest : dict)
      (parent_key sep : string) (items : list (string * value)) :
  flatten_items (unbound_global "flatten_nested_dict")
                ((k, VDict d) :: rest) parent_key sep items
  = Raise (NameError "flatten_nested_dict").
Proof. reflexivity. Qed.

Lemma depth_nest_list (n : nat) (v : value) :
  depth (nest_list n v) = (n + depth v)%nat.
Proof.
  induction n as [|n IH]; [reflexivity|].
  simpl. rewrite IH. lia.
Qed.

(** C3, as stated, fails: a mapping nested deeper than 32 levels is not
    rejected with a depth error.  With 40 levels of sequences the call
    returns a result; with 40 levels of mappings it raises [NameError], as
    it does for two levels. *)
Lemma flatten_deep_counterexample :
  (32 < depth (VDict [("a", nest_list 40 (VInt 1))]))%nat /\
  flatten_nested_dict [("a", nest_list 40 (VInt 1))] "" "_"
  = Ok [("a_0", nest_list 39 (VInt 1))] /\
  (32 < depth (nest_dict 40 (VInt 1)))%nat /\
  flatten_nested_dict [("a", nest_dict 39 (VInt 1))] "" "_"
  = Raise (NameError "flatten_nested_dict") /\
  flatten_nested_dict [("a", nest_dict 1 (VInt 1))] "" "_"
  = Raise (NameError "flatten_nested_dict").
Proof. repeat split; vm_compute; lia. Qed.

(** C3, amended: [flatten_nested_dict] takes no depth bound and has no
    depth error.  A mapping whose entries are scalars or sequences without
    mapping elements is given a result whatever its nesting depth, and
    such mappings exist at every depth: for every [n] there is one nested
    deeper than [n], and it is given a result. *)
Theorem flatten_nested_dict_no_depth_limit :
  (forall data parent_key sep,
      no_mapping_entries data = true ->
      exists out, flatten_nested_dict data parent_key sep = Ok out) /\
  (forall (n : nat) (v : value),
      is_dict (nest_list n v) = false ->
      (n < depth (VDict [("a", nest_list (S n) v)]))%nat /\
      no_mapping_entries [("a", nest_list (S n) v)] = true /\
      exists out,
        flatten_nested_dict [("a", nest_list (S n) v)] "" "_" = Ok out).
Proof.
  assert (Hrun : forall data parent_key sep,
             no_mapping_entries data = true ->
             exists out, flatten_nested_dict data parent_key sep = Ok out).
  { intros data parent_key sep Hd. unfold flatten_nested_dict, flatten_body.
    destruct (flatten_items_no_mapping
                (unbound_global "flatten_nested_dict") data parent_key sep Hd [])
      as [items' Hrun].
    rewrite Hrun. simpl. eauto. }
  split; [exact Hrun|].
  intros n v Hv.
  assert (Hflat : no_mapping_entries [("a", nest_list (S n) v)] = true).
  { cbn. now rewrite Hv. }
  split; [|split].
  - simpl. rewrite depth_nest_list. lia.
  - exact Hflat.
  - now apply Hrun.
Qed.

Lemma flatten_nested_dict_no_depth_limit_witness :
  (exists out,
      flatten_nested_dict [("a", VList [VList [VInt 1]]); ("b", VStr "x")] "" "_"
      = Ok out) /\
  (33 < depth (VDict [("a", nest_list 34 (VStr "x"))]))%nat /\
  (exists out,
      flatten_nested_dict [("a", nest_list 34 (VStr "x"))] "" "_" = Ok out).
Proof.
  split.
  - apply (proj1 flatten_nested_dict_no_depth_limit). reflexivity.
  - pose proof (proj2 flatten_nested_dict_no_depth_limit 33%nat (VStr "x")
                      eq_refl) as (Hdepth & _ & Hout).
    split; [exact Hdepth | exact Hout].
Defined.

(** C4: the code breaks the claim.  The spec's first example, a mapping
    nested in a mapping, raises [NameError] instead of giving
    [{"a_b": 1, "a_c": 2}]; the second example, a sequence of scalars, is
    flattened as the claim says. *)
Theorem flatten_nested_mapping_name_error :
  flatten_nested_dict [("a", VDict [("b", VInt 1); ("c", VInt 2)])] "" "_"
  = Raise (NameError "flatten_nested_dict") /\
  flatten_nested_dict [("a", VList [VInt 1; VInt 2; VInt 3])] "" "_"
  = Ok [("a_0", VInt 1); ("a_1", VInt 2); ("a_2", VInt 3)].
Proof. split; reflexivity. Qed.

(** The index of a sequence element is joined with an underscore even when
    another separator is asked for. *)
Lemma flatten_index_ignores_sep :
  flatten_nested_dict [("a", VList [VInt 1; VInt 2])] "p" "."
  = Ok [("p.a_0", VInt 1); ("p.a_1", VInt 2)].
Proof. reflexivity. Qed.

(** C5: the code breaks the claim.  A sequence nested in a sequence is
    copied into the output as it is, so a successful call returns a value
    that is a container. *)
Theorem flatten_keeps_nested_sequence :
  flatten_nested_dict [("a", VList [VList [VInt 1; VInt 2]])] "" "_"
  = Ok [("a_0", VList [VInt 1; VInt 2])] /\
  is_scalar (VList [VInt 1; VInt 2]) = false.
Proof. split; reflexivity. Qed.

(** *** Equality of dictionary keys *)

Lemma pow2_pos (e : Z) : 0 <= e -> 0 < 2 ^ e.
Proof. intros. apply Z.pow_pos_nonneg; lia. Qed.

(** Two numbers are equal when they agree at any common scale. *)
Lemma num_eqb_scaled (a b : num) (E : Z) :
  E <= snd a -> E <= snd b ->
  num_eqb a b = true <-> fst a * 2 ^ (snd a - E) = fst b * 2 ^ (snd b - E).
Proof.
  intros Ha Hb. unfold num_eqb, num_compare.
  set (e := Z.min (snd a) (snd b)).
  assert (He : E <= e) by (unfold e; lia).
  replace (snd a - E) with ((snd a - e) + (e - E)) by lia.
  replace (snd b - E) with ((snd b - e) + (e - E)) by lia.
  rewrite !Z.pow_add_r by (unfold e; lia).
  rewrite !Z.mul_assoc.
  pose proof (pow2_pos (e - E) ltac:(lia)) as Hpos.
  destruct (Z.compare_spec (fst a * 2 ^ (snd a - e)) (fst b * 2 ^ (snd b - e)))
    as [Heq|Hlt|Hgt]; split; intros H; try discriminate; try reflexivity.
  - now rewrite Heq.
  - apply Z.mul_reg_r in H; lia.
  - apply Z.mul_reg_r in H; lia.
Qed.

Lemma num_eqb_refl (a : num) : num_eqb a a = true.
Proof. unfold num_eqb, num_compare. now rewrite Z.compare_refl. Qed.

Lemma num_eqb_sym (a b : num) : num_eqb a b = true -> num_eqb b a = true.
Proof.
  intros H.
  apply (num_eqb_scaled a b (Z.min (snd a) (snd b))) in H; [|lia|lia].
  apply (num_eqb_scaled b a (Z.min (snd a) (snd b))); lia.
Qed.

Lemma num_eqb_trans (a b c : num) :
  num_eqb a b = true -> num_eqb b c = true -> num_eqb a c = true.
Proof.
  intros Hab Hbc.
  set (E := Z.min (snd a) (Z.min (snd b) (snd c))).
  assert (HE : E <= snd a /\ E <= snd b /\ E <= snd c) by (unfold E; lia).
  apply (num_eqb_scaled a b E) in Hab; [|tauto|tauto].
  apply (num_eqb_scaled b c E) in Hbc; [|tauto|tauto].
  apply (num_eqb_scaled a c E); [tauto|tauto|].
  congruence.
Qed.

Lemma num_eqb_zero (a b : num) :
  num_eqb a b = true -> (fst a = 0 <-> fst b = 0).
Proof.
  intros H.
  apply (num_eqb_scaled a b (Z.min (snd a) (snd b))) in H; [|lia|lia].
  pose proof (pow2_pos (snd a - Z.min (snd a) (snd b)) ltac:(lia)).
  pose proof (pow2_pos (snd b - Z.min (snd a) (snd b)) ltac:(lia)).
  nia.
Qed.

(** On a number, [==] is numeric equality with the other side's number. *)
Lemma py_eq_num (a b : value) (x : num) :
  as_num a = Some x ->
  py_eq a b = match as_num b with Some y => num_eqb x y | None => false end.
Proof.
  destruct a; simpl; try discriminate; intros [= <-]; destruct b; reflexivity.
Qed.

Lemma hashable_cases (a : value) :
  hashable a = true ->
  a = VNone \/ (exists s, a = VStr s) \/ (exists x, as_num a = Some x).
Proof. destruct a; simpl; try discriminate; eauto. Qed.

Lemma py_eq_refl (a : value) : hashable a = true -> py_eq a a = true.
Proof.
  intros H. destruct (hashable_cases a H) as [->|[[s ->]|[x Hx]]].
  - reflexivity.
  - simpl. apply String.eqb_refl.
  - rewrite (py_eq_num a a x Hx), Hx. apply num_eqb_refl.
Qed.

(** Whatever equals a hashable value is hashable. *)
Lemma py_eq_hashable (a b : value) :
  hashable a = true -> py_eq a b = true -> hashable b = true.
Proof. destruct a, b; simpl; try discriminate; auto. Qed.

Lemma py_eq_hashable_l (a b : value) :
  hashable b = true -> py_eq a b = true -> hashable a = true.
Proof. destruct a, b; simpl; try discriminate; auto. Qed.

Lemma py_eq_sym (a b : value) :
  hashable a = true -> py_eq a b = true -> py_eq b a = true.
Proof.
  intros Ha Hab. pose proof (py_eq_hashable a b Ha Hab) as Hb.
  destruct (hashable_cases a Ha) as [->|[[s ->]|[x Hx]]].
  - destruct b; try discriminate; reflexivity.
  - destruct b; try discriminate. simpl in *. now rewrite String.eqb_sym.
  - rewrite (py_eq_num a b x Hx) in Hab.
    destruct (as_num b) as [y|] eqn:Hy; [|discriminate].
    rewrite (py_eq_num b a y Hy), Hx. now apply num_eqb_sym.
Qed.

Lemma py_eq_trans (a b c : value) :
  hashable a = true ->
  py_eq a b = true -> py_eq b c = true -> py_eq a c = true.
Proof.
  intros Ha Hab Hbc.
  destruct (hashable_cases a Ha) as [->|[[s ->]|[x Hx]]].
  - destruct b; try discriminate; exact Hbc.
  - destruct b; try discriminate. simpl in Hab.
    apply String.eqb_eq in Hab. now subst.
  - rewrite (py_eq_num a b x Hx) in Hab.
    destruct (as_num b) as [y|] eqn:Hy; [|discriminate].
    rewrite (py_eq_num b c y Hy) in Hbc.
    rewrite (py_eq_num a c x Hx).
    destruct (as_num c) as [z|]; [|discriminate].
    now apply (num_eqb_trans x y z).
Qed.

Lemma truthy_num (a : value) (x : num) :
  as_num a = Some x -> truthy a = negb (fst x =? 0).
Proof.
  destruct a; simpl; try discriminate; intros [= <-]; simpl.
  - now destruct b.
  - reflexivity.
  - reflexivity.
Qed.

(** Equal keys are both truthy or both falsy. *)
Lemma py_eq_truthy (a b : value) :
  hashable a = true -> py_eq a b = true -> truthy a = truthy b.
Proof.
  intros Ha Hab.
  destruct (hashable_cases a Ha) as [->|[[s ->]|[x Hx]]].
  - destruct b; try discriminate; reflexivity.
  - destruct b; try discriminate. simpl in Hab.
    apply String.eqb_eq in Hab. now subst.
  - rewrite (py_eq_num a b x Hx) in Hab.
    destruct (as_num b) as [y|] eqn:Hy; [|discriminate].
    rewrite (truthy_num a x Hx), (truthy_num b y Hy).
    apply num_eqb_zero in Hab.
    destruct (Z.eqb_spec (fst x) 0), (Z.eqb_spec (fst y) 0); simpl; tauto || lia.
Qed.

(** *** Merge by recency *)

Lemma vdict_lookup_none {A : Type} (m : list (value * A)) (k : value) (v : A) :
  vdict_lookup m k = None ->
  (forall e, In e m -> py_eq (fst e) k = false) /\
  vdict_set m k v = (m ++ [(k, v)])%list.
Proof.
  induction m as [|[k0 v0] m IH]; simpl; intros H.
  - split; [tauto|reflexivity].
  - destruct (py_eq k0 k) eqn:Hk; [discriminate|].
    destruct (IH H) as [Hall Hset]. split.
    + intros e [<-|He]; auto.
    + now rewrite Hset.
Qed.

Lemma vdict_lookup_some {A : Type} (m : list (value * A)) (k : value) (cur : A) :
  vdict_lookup m k = Some cur ->
  exists m1 k0 m2,
    m = (m1 ++ (k0, cur) :: m2)%list /\
    py_eq k0 k = true /\
    (forall e, In e m1 -> py_eq (fst e) k = false) /\
    forall v, vdict_set m k v = (m1 ++ (k0, v) :: m2)%list.
Proof.
  induction m as [|[k0 v0] m IH]; simpl; intros H; [discriminate|].
  destruct (py_eq k0 k) eqn:Hk.
  - injection H as <-. exists [], k0, m. repeat split; auto.
    intros e [].
  - destruct (IH H) as (m1 & k1 & m2 & -> & Hk1 & Hm1 & Hset).
    exists ((k0, v0) :: m1), k1, m2. repeat split; auto.
    + intros e [<-|He]; auto.
    + intros v. simpl. now rewrite Hset.
Qed.

Lemma keys_distinct_snoc (ks : list value) (k : value) :
  keys_distinct ks ->
  (forall k', In k' ks -> py_eq k' k = false) ->
  keys_distinct (ks ++ [k]).
Proof.
  induction ks as [|k0 ks IH]; simpl; intros Hd Hk.
  - split; [intros k' []|exact I].
  - destruct Hd as [Hk0 Hd]. split.
    + intros k' Hin. apply in_app_or in Hin. destruct Hin as [Hin|[<-|[]]]; auto.
    + apply IH; auto.
Qed.

Lemma keys_distinct_after (l1 l2 : list value) (k : value) :
  keys_distinct (l1 ++ k :: l2) ->
  forall k', In k' l2 -> py_eq k k' = false.
Proof.
  induction l1 as [|k0 l1 IH]; simpl; intros [Hk Hd]; auto.
Qed.

Section MergeRecency.

Variable parse : string -> Z.
Variable merge_key : string.


Lemma first_newest_keep (pre : list dict) (x : dict) (i : nat) (r : dict) :
  first_newest parse merge_key pre i r ->
  (same_identity merge_key x r -> parse (stamp_text x) <= parse (stamp_text r)) ->
  first_newest parse merge_key (pre ++ [x]) i r.
Proof.
  intros [Hi Hall] Hx.
  assert (Hlt : (i < List.length pre)%nat).
  { apply nth_error_Some. congruence. }
  split.
  - now rewrite nth_error_app1.
  - intros j r' Hj Hsame.
    destruct (Nat.lt_ge_cases j (List.length pre)) as [Hjlt|Hjge].
    + rewrite nth_error_app1 in Hj by exact Hjlt. now apply Hall.
    + rewrite nth_error_app2 in Hj by exact Hjge.
      destruct (j - List.length pre)%nat as [|n] eqn:Hn; simpl in Hj.
      * injection Hj as <-. split; [auto|lia].
      * destruct n; discriminate.
Qed.

Lemma first_newest_new (pre : list dict) (x : dict) :
  (forall j r', nth_error pre j = Some r' -> same_identity merge_key r' x ->
                parse (stamp_text r') < parse (stamp_text x)) ->
  first_newest parse merge_key (pre ++ [x]) (List.length pre) x.
Proof.
  intros Hold. split.
  - rewrite nth_error_app2 by lia. now rewrite Nat.sub_diag.
  - intros j r' Hj Hsame.
    destruct (Nat.lt_ge_cases j (List.length pre)) as [Hjlt|Hjge].
    + rewrite nth_error_app1 in Hj by exact Hjlt.
      specialize (Hold j r' Hj Hsame). lia.
    + rewrite nth_error_app2 in Hj by exact Hjge.
      destruct (j - List.length pre)%nat as [|n] eqn:Hn; simpl in Hj.
      * injection Hj as <-. lia.
      * destruct n; discriminate.
Qed.

(** An entry whose key differs from the new record's stays valid. *)
Lemma entry_ok_other (pre : list dict) (x : dict) (e : value * dict) :
  entry_ok parse merge_key pre e ->
  py_eq (fst e) (dict_get x merge_key) = false ->
  entry_ok parse merge_key (pre ++ [x]) e.
Proof.
  intros (Hh & Ht & Heq & i & Hi) Hne. repeat split; auto.
  exists i. apply first_newest_keep; auto.
  intros Hsame. unfold same_identity in Hsame.
  assert (Hhr : hashable (dict_get (snd e) merge_key) = true) by (eapply py_eq_hashable; eauto).
  assert (py_eq (fst e) (dict_get x merge_key) = true); [|congruence].
  eapply py_eq_trans; eauto.
  apply py_eq_sym; auto.
  eapply py_eq_hashable_l; eauto.
Qed.


Lemma merge_inv_entry_other (pre : list dict) (x : dict)
      (m1 m2 : list (value * dict)) (k0 : value) (cur : dict) :
  Forall (entry_ok parse merge_key pre) (m1 ++ (k0, cur) :: m2) ->
  keys_distinct (map fst (m1 ++ (k0, cur) :: m2)) ->
  py_eq k0 (dict_get x merge_key) = true ->
  (forall e, In e m1 -> py_eq (fst e) (dict_get x merge_key) = false) ->
  Forall (entry_ok parse merge_key (pre ++ [x])) m1 /\
  Forall (entry_ok parse merge_key (pre ++ [x])) m2.
Proof.
  intros Hent Hdist Hk0 Hm1.
  apply Forall_app in Hent. destruct Hent as [Hent1 Hent2].
  inversion Hent2 as [|? ? Hcur Hent2']; subst.
  split.
  - apply Forall_forall. intros e He.
    apply entry_ok_other; [|now apply Hm1].
    eapply Forall_forall in Hent1; eauto.
  - apply Forall_forall. intros e He.
    pose proof (proj1 (Forall_forall _ _) Hent2' e He) as Hok.
    apply entry_ok_other; [exact Hok|].
    destruct (py_eq (fst e) (dict_get x merge_key)) eqn:Hq; [|reflexivity].
    rewrite map_app in Hdist. simpl in Hdist.
    pose proof (keys_distinct_after _ _ _ Hdist (fst e) (in_map fst _ _ He)) as Hne.
    destruct Hcur as (Hh0 & _). destruct Hok as (Hhe & _).
    assert (py_eq k0 (fst e) = true); [|congruence].
    eapply py_eq_trans; [exact Hh0|exact Hk0|].
    now apply py_eq_sym.
Qed.

(** One turn of the loop keeps the invariant and does not raise. *)
Lemma merge_step_inv (pre : list dict) (x : dict) (m : list (value * dict)) :
  merge_inv parse merge_key pre m ->
  well_keyed merge_key (pre ++ [x]) ->
  text_stamped (pre ++ [x]) ->
  order_agrees parse merge_key (pre ++ [x]) ->
  exists m', merge_step merge_key m x = Ok m' /\
             merge_inv parse merge_key (pre ++ [x]) m'.
Proof.
  intros (Hent & Hcov & Hdist) Hkey Htext Hagree.
  assert (Hinx : In x (pre ++ [x])) by (apply in_or_app; right; now left).
  unfold merge_step.
  destruct (truthy (dict_get x merge_key)) eqn:Htx; cbn [negb].
  2: { exists m. split; [reflexivity|]. split; [|split; auto].
       - apply Forall_forall. intros e He.
         pose proof (proj1 (Forall_forall _ _) Hent e He) as Hok.
         apply entry_ok_other; [exact Hok|].
         destruct (py_eq (fst e) (dict_get x merge_key)) eqn:Hq; [|reflexivity].
         destruct Hok as (Hh & Ht & Heq & _).
         rewrite <- (py_eq_truthy _ _ Hh Hq) in Htx.
         rewrite (py_eq_truthy _ _ Hh Heq) in Htx. congruence.
       - intros r Hin Htr. apply in_app_or in Hin.
         destruct Hin as [Hin|[<-|[]]]; [auto|congruence]. }
  assert (Hhx : hashable (dict_get x merge_key) = true) by (apply Hkey; auto).
  rewrite Hhx. cbn [negb].
  destruct (vdict_lookup m (dict_get x merge_key)) as [cur|] eqn:Hlook.
  - destruct (vdict_lookup_some _ _ _ Hlook)
      as (m1 & k0 & m2 & -> & Hk0 & Hm1 & Hset).
    destruct (merge_inv_entry_other pre x m1 m2 k0 cur Hent Hdist Hk0 Hm1)
      as [Hok1 Hok2].
    pose proof Hent as Hent'.
    apply Forall_app in Hent'. destruct Hent' as [_ Hcur].
    inversion Hcur as [|? ? (Hh0 & Htc & Heqc & i & Hi) _]; subst.
    cbn [fst snd] in *.
    assert (Hhc : hashable (dict_get cur merge_key) = true)
      by (eapply py_eq_hashable; eauto).
    assert (Hcx : same_identity merge_key cur x).
    { unfold same_identity. eapply py_eq_trans; [exact Hhc| |exact Hk0].
      now apply py_eq_sym. }
    assert (Hxc : same_identity merge_key x cur)
      by (unfold same_identity; apply py_eq_sym; auto).
    assert (Hinc : In cur (pre ++ [x])).
    { apply in_or_app. left. destruct Hi as [Hi _]. eapply nth_error_In; eauto. }
    destruct (Htext x Hinx) as [sx Hsx]. destruct (Htext cur Hinc) as [sc Hsc].
    pose proof (Hagree x cur Hinx Hinc Hxc) as Hord.
    unfold stamp_text in Hord. rewrite Hsx, Hsc in Hord.
    change (dict_get_default cur "_updated_at" (VStr "")) with (updated_at cur).
    change (dict_get_default x "_updated_at" (VStr "")) with (updated_at x).
    rewrite Hsx, Hsc. cbn [py_gt bind].
    assert (Hsxt : stamp_text x = sx) by (unfold stamp_text; now rewrite Hsx).
    assert (Hsct : stamp_text cur = sc) by (unfold stamp_text; now rewrite Hsc).
    destruct (str_gt sx sc) eqn:Hgt.
    + exists (m1 ++ (k0, x) :: m2)%list. split; [now rewrite Hset|].
      split; [|split].
      * apply Forall_app. split; [exact Hok1|]. constructor; [|exact Hok2].
        unfold entry_ok; cbn [fst snd].
        repeat split; auto. exists (List.length pre).
        apply first_newest_new. intros j r' Hj Hsame.
        assert (Hrc : same_identity merge_key r' cur).
        { unfold same_identity in *.
          eapply py_eq_trans; [|exact Hsame|exact Hxc].
          exact (py_eq_hashable_l _ _ Hhx Hsame). }
        destruct Hi as [_ Hall]. destruct (Hall j r' Hj Hrc) as [Hle _].
        rewrite Hsxt, Hsct in *. pose proof (proj1 Hord eq_refl). lia.
      * intros r Hin Htr. apply in_app_or in Hin.
        destruct Hin as [Hin|[<-|[]]].
        -- destruct (Hcov r Hin Htr) as (e & He & Heq).
           apply in_app_or in He. destruct He as [He|[<-|He]].
           ++ exists e. split; [apply in_or_app; now left|exact Heq].
           ++ exists (k0, x). split; [apply in_or_app; right; now left|exact Heq].
           ++ exists e. split; [apply in_or_app; right; now right|exact Heq].
        -- exists (k0, x). split; [apply in_or_app; right; now left|exact Hk0].
      * rewrite map_app in *. exact Hdist.
    + exists (m1 ++ (k0, cur) :: m2)%list. split; [reflexivity|].
      split; [|split].
      * apply Forall_app. split; [exact Hok1|]. constructor; [|exact Hok2].
        unfold entry_ok; cbn [fst snd].
        repeat split; auto. exists i.
        apply first_newest_keep; [exact Hi|]. intros _.
        rewrite Hsxt, Hsct.
        destruct (Z_lt_le_dec (parse sc) (parse sx)) as [Hlt|Hle]; [|exact Hle].
        apply Hord in Hlt. congruence.
      * intros r Hin Htr. apply in_app_or in Hin.
        destruct Hin as [Hin|[<-|[]]]; [auto|].
        exists (k0, cur). split; [apply in_or_app; right; now left|exact Hk0].
      * exact Hdist.
  - destruct (vdict_lookup_none m _ x Hlook) as [Hall Hset].
    exists (m ++ [(dict_get x merge_key, x)])%list. split; [now rewrite Hset|].
    split; [|split].
    + apply Forall_app. split.
      * apply Forall_forall. intros e He.
        apply entry_ok_other; [|now apply Hall].
        eapply Forall_forall in Hent; eauto.
      * constructor; [|constructor].
        unfold entry_ok; cbn [fst snd].
        repeat split; auto; [now apply py_eq_refl|].
        exists (List.length pre). apply first_newest_new.
        intros j r' Hj Hsame. exfalso.
        unfold same_identity in Hsame.
        assert (Hhr : hashable (dict_get r' merge_key) = true)
          by exact (py_eq_hashable_l _ _ Hhx Hsame).
        assert (Htr : truthy (dict_get r' merge_key) = true)
          by (rewrite (py_eq_truthy _ _ Hhr Hsame); exact Htx).
        destruct (Hcov r' (nth_error_In _ _ Hj) Htr) as (e & He & Heq).
        pose proof (proj1 (Forall_forall _ _) Hent e He) as (Hhe & _).
        assert (py_eq (fst e) (dict_get x merge_key) = true)
          by (eapply py_eq_trans; eauto).
        rewrite (Hall e He) in *. discriminate.
    + intros r Hin Htr. apply in_app_or in Hin.
      destruct Hin as [Hin|[<-|[]]].
      * destruct (Hcov r Hin Htr) as (e & He & Heq).
        exists e. split; [apply in_or_app; now left|exact Heq].
      * exists (dict_get x merge_key, x).
        split; [apply in_or_app; right; now left|now apply py_eq_refl].
    + rewrite map_app. apply keys_distinct_snoc; [exact Hdist|].
      intros k' Hk'. apply in_map_iff in Hk'. destruct Hk' as (e & <- & He).
      now apply Hall.
Qed.

End MergeRecency.

Lemma keys_distinct_unique (m : list (value * dict)) (e1 e2 : value * dict) :
  keys_distinct (map fst m) ->
  In e1 m -> In e2 m ->
  hashable (fst e1) = true ->
  py_eq (fst e1) (fst e2) = true ->
  e1 = e2.
Proof.
  induction m as [|e m IH]; [intros _ []|].
  simpl. intros [Hk Hd] H1 H2 Hh Heq.
  destruct H1 as [<-|H1], H2 as [<-|H2]; auto.
  - rewrite (Hk (fst e2) (in_map fst _ _ H2)) in Heq. discriminate.
  - apply py_eq_sym in Heq; [|exact Hh].
    rewrite (Hk (fst e1) (in_map fst _ _ H1)) in Heq. discriminate.
Qed.

(** Distinct keys sit at distinct positions. *)
Lemma keys_distinct_nth (ks : list value) :
  keys_distinct ks ->
  forall i j a b,
    nth_error ks i = Some a -> nth_error ks j = Some b ->
    hashable a = true -> py_eq a b = true -> i = j.
Proof.
  induction ks as [|k ks IH]; intros Hd i j a b Hi Hj Hh Heq.
  - destruct i; discriminate Hi.
  - destruct Hd as [Hk Hd]. destruct i as [|i], j as [|j]; simpl in Hi, Hj.
    + reflexivity.
    + injection Hi as <-.
      rewrite (Hk b (nth_error_In _ _ Hj)) in Heq. discriminate.
    + injection Hj as <-. apply py_eq_sym in Heq; [|exact Hh].
      rewrite (Hk a (nth_error_In _ _ Hi)) in Heq. discriminate.
    + f_equal. exact (IH Hd i j a b Hi Hj Hh Heq).
Qed.

Lemma nth_error_map_inv {A B : Type} (f : A -> B) (l : list A) (i : nat) (b : B) :
  nth_error (map f l) i = Some b ->
  exists a, nth_error l i = Some a /\ f a = b.
Proof.
  revert i. induction l as [|x l IH]; intros [|i] H; simpl in H; try discriminate.
  - injection H as <-. now exists x.
  - now apply IH.
Qed.

Lemma merge_loop_snoc (merge_key : string) (pre : list dict) (x : dict) :
  forall m,
    merge_loop merge_key m (pre ++ [x])
    = (m' <- merge_loop merge_key m pre ;; merge_step merge_key m' x).
Proof.
  induction pre as [|r pre IH]; intros m; simpl.
  - now destruct (merge_step merge_key m x).
  - destruct (merge_step merge_key m r); simpl; auto.
Qed.

Lemma well_keyed_prefix (merge_key : string) (pre : list dict) (x : dict) :
  well_keyed merge_key (pre ++ [x]) -> well_keyed merge_key pre.
Proof. intros H r Hin. apply H, in_or_app. now left. Qed.

Lemma text_stamped_prefix (pre : list dict) (x : dict) :
  text_stamped (pre ++ [x]) -> text_stamped pre.
Proof. intros H r Hin. apply H, in_or_app. now left. Qed.

Lemma order_agrees_prefix (parse : string -> Z) (merge_key : string)
      (pre : list dict) (x : dict) :
  order_agrees parse merge_key (pre ++ [x]) -> order_agrees parse merge_key pre.
Proof. intros H r1 r2 H1 H2. apply H; apply in_or_app; now left. Qed.

(** The loop runs to its end and establishes the invariant. *)
Lemma merge_loop_inv (parse : string -> Z) (merge_key : string)
      (records : list dict) :
  well_keyed merge_key records ->
  text_stamped records ->
  order_agrees parse merge_key records ->
  exists m, merge_loop merge_key [] records = Ok m /\
            merge_inv parse merge_key records m.
Proof.
  induction records as [|x pre IH] using rev_ind; intros Hkey Htext Hagree.
  - exists []. split; [reflexivity|]. repeat split; simpl; auto. tauto.
  - destruct (IH (well_keyed_prefix _ _ _ Hkey) (text_stamped_prefix _ _ Htext)
                 (order_agrees_prefix _ _ _ _ Hagree)) as (m & Hrun & Hinv).
    destruct (merge_step_inv parse merge_key pre x m Hinv Hkey Htext Hagree)
      as (m' & Hstep & Hinv').
    exists m'. split; [|exact Hinv'].
    now rewrite merge_loop_snoc, Hrun.
Qed.

(** C1, as stated, fails.  On the spec's own example, whose records carry
    [updated_at], the first record survives: the code reads [_updated_at],
    which both records lack.  With [_updated_at] present and equal, the
    first record wins the tie, not the last. *)
Lemma merge_records_recency_counterexample :
  merge_records
    [ [("id", VStr "1"); ("updated_at", VStr "2024-01-01T00:00:00Z"); ("v", VInt 1)];
      [("id", VStr "1"); ("updated_at", VStr "2024-02-01T00:00:00Z"); ("v", VInt 2)] ]
    "id"
  = (Ok [ [("id", VStr "1"); ("updated_at", VStr "2024-01-01T00:00:00Z"); ("v", VInt 1)] ],
     []) /\
  merge_records
    [ [("id", VStr "1"); ("_updated_at", VStr "2024-01-01T00:00:00Z"); ("v", VInt 1)];
      [("id", VStr "1"); ("_updated_at", VStr "2024-01-01T00:00:00Z"); ("v", VInt 2)] ]
    "id"
  = (Ok [ [("id", VStr "1"); ("_updated_at", VStr "2024-01-01T00:00:00Z"); ("v", VInt 1)] ],
     []).
Proof. split; reflexivity. Qed.

(** Timestamps in two formats are compared as text: the record of 2023 in
    ISO form beats the record of 2024 in epoch milliseconds. *)
Lemma merge_records_mixed_formats :
  merge_records
    [ [("id", VStr "1"); ("_updated_at", VStr "1704067200000"); ("v", VInt 1)];
      [("id", VStr "1"); ("_updated_at", VStr "2023-06-01T00:00:00Z"); ("v", VInt 2)] ]
    "id"
  = (Ok [ [("id", VStr "1"); ("_updated_at", VStr "2023-06-01T00:00:00Z"); ("v", VInt 2)] ],
     []) /\
  sample_instant "2023-06-01T00:00:00Z" < sample_instant "1704067200000".
Proof. split; reflexivity. Qed.

(** Identities are matched as dictionary keys are: the integer [10**23]
    and the float [1e23] are two identities and both records survive,
    while [1] and [1.0] are one. *)
Lemma merge_records_numeric_identities :
  merge_records [ [("id", VInt (10 ^ 23)); ("v", VInt 1)];
                  [("id", VFloat (mkFloat false 1 23)); ("v", VInt 2)] ] "id"
  = (Ok [ [("id", VInt (10 ^ 23)); ("v", VInt 1)];
          [("id", VFloat (mkFloat false 1 23)); ("v", VInt 2)] ], []) /\
  merge_records [ [("id", VInt 1); ("v", VInt 1)];
                  [("id", VFloat (mkFloat false 1 0)); ("v", VInt 2)] ] "id"
  = (Ok [ [("id", VInt 1); ("v", VInt 1)] ], []).
Proof. split; vm_compute; reflexivity. Qed.

(** C1, amended: [merge_records] compares the [_updated_at] texts (an
    absent one counts as the empty string).  When identities are hashable,
    timestamps are text and, within an identity group, text order agrees
    with the order of the parsed instants, the call returns without
    warning exactly one survivor per identity group: every survivor is the
    record with the greatest parsed timestamp of its group, and on equal
    timestamps the first of them in input order; every record that has an
    identity has its group's survivor in the output; and no two positions
    of the output hold records of one group. *)
Theorem merge_records_first_newest (parse : string -> Z) (merge_key : string)
        (records : list dict) :
  well_keyed merge_key records ->
  text_stamped records ->
  order_agrees parse merge_key records ->
  exists out,
    merge_records records merge_key = (Ok out, []) /\
    (forall r, In r out -> exists i, first_newest parse merge_key records i r) /\
    (forall r', In r' records -> truthy (dict_get r' merge_key) = true ->
                exists r, In r out /\ same_identity merge_key r' r) /\
    (forall i j r1 r2,
        nth_error out i = Some r1 -> nth_error out j = Some r2 ->
        same_identity merge_key r1 r2 -> i = j).
Proof.
  intros Hkey Htext Hagree.
  destruct (merge_loop_inv parse merge_key records Hkey Htext Hagree)
    as (m & Hrun & Hent & Hcov & Hdist).
  exists (vdict_values m). unfold merge_records, silent. rewrite Hrun.
  split; [reflexivity|]. unfold vdict_values. split; [|split].
  - intros r Hin. apply in_map_iff in Hin. destruct Hin as (e & <- & He).
    eapply Forall_forall in Hent; eauto. now destruct Hent as (_ & _ & _ & Hi).
  - intros r' Hin Htr. destruct (Hcov r' Hin Htr) as (e & He & Heq).
    exists (snd e). split; [now apply in_map|].
    eapply Forall_forall in Hent; eauto. destruct Hent as (Hh & _ & Heqe & _).
    unfold same_identity.
    eapply py_eq_trans; [| |exact Heqe].
    + exact (py_eq_hashable _ _ Hh Heq).
    + now apply py_eq_sym.
  - intros i j r1 r2 H1 H2 Hsame.
    apply nth_error_map_inv in H1. destruct H1 as (e1 & He1 & <-).
    apply nth_error_map_inv in H2. destruct H2 as (e2 & He2 & <-).
    pose proof (proj1 (Forall_forall _ _) Hent e1 (nth_error_In _ _ He1))
      as (Hh1 & _ & Heq1 & _).
    pose proof (proj1 (Forall_forall _ _) Hent e2 (nth_error_In _ _ He2))
      as (Hh2 & _ & Heq2 & _).
    apply (keys_distinct_nth (map fst m) Hdist i j (fst e1) (fst e2)).
    + now apply map_nth_error.
    + now apply map_nth_error.
    + exact Hh1.
    + unfold same_identity in Hsame.
      eapply py_eq_trans; [exact Hh1|exact Heq1|].
      eapply py_eq_trans; [|exact Hsame|].
      * exact (py_eq_hashable _ _ Hh1 Heq1).
      * apply py_eq_sym; auto.
Qed.

Lemma merge_records_first_newest_witness :
  well_keyed "id" sample_records /\
  text_stamped sample_records /\
  order_agrees sample_instant "id" sample_records /\
  exists out,
    merge_records sample_records "id" = (Ok out, []) /\
    (forall r, In r out -> exists i, first_newest sample_instant "id" sample_records i r) /\
    (forall r', In r' sample_records -> truthy (dict_get r' "id") = true ->
                exists r, In r out /\ same_identity "id" r' r) /\
    (forall i j r1 r2,
        nth_error out i = Some r1 -> nth_error out j = Some r2 ->
        same_identity "id" r1 r2 -> i = j).
Proof.
  assert (Hkey : well_keyed "id" sample_records).
  { intros r Hin _. in_cases Hin; reflexivity. }
  assert (Htext : text_stamped sample_records).
  { intros r Hin. in_cases Hin; eexists; reflexivity. }
  assert (Hagree : order_agrees sample_instant "id" sample_records).
  { intros r1 r2 H1 H2 _. in_cases H1; in_cases H2;
      vm_compute; split; intros H; try discriminate H; reflexivity. }
  split; [exact Hkey|]. split; [exact Htext|]. split; [exact Hagree|].
  exact (merge_records_first_newest sample_instant "id" sample_records
           Hkey Htext Hagree).
Defined.

(** *** Records that are skipped *)

Lemma merge_step_falsy (merge_key : string) (m : list (value * dict)) (r : dict) :
  truthy (dict_get r merge_key) = false -> merge_step merge_key m r = Ok m.
Proof. intros H. unfold merge_step. now rewrite H. Qed.

(** Removing records that the loop skips does not change its outcome. *)
Lemma merge_loop_filter (merge_key : string) (keep : dict -> bool)
      (records : list dict) :
  (forall r, keep r = false -> truthy (dict_get r merge_key) = false) ->
  forall m, merge_loop merge_key m (filter keep records)
            = merge_loop merge_key m records.
Proof.
  intros Hkeep. induction records as [|r rest IH]; intros m; simpl; auto.
  destruct (keep r) eqn:Hr; simpl.
  - destruct (merge_step merge_key m r); simpl; auto.
  - rewrite (merge_step_falsy merge_key m r (Hkeep r Hr)). simpl. apply IH.
Qed.

Lemma vdict_set_values {A : Type} (Q : A -> Prop) (m : list (value * A))
      (k : value) (v : A) :
  Forall (fun e => Q (snd e)) m -> Q v ->
  Forall (fun e => Q (snd e)) (vdict_set m k v).
Proof.
  intros Hm Hv. induction m as [|[k0 v0] m IH]; simpl.
  - now constructor.
  - inversion Hm; subst.
    destruct (py_eq k0 k); constructor; auto.
Qed.

Lemma merge_step_truthy (merge_key : string) (m m' : list (value * dict))
      (r : dict) :
  Forall (fun e => truthy (dict_get (snd e) merge_key) = true) m ->
  merge_step merge_key m r = Ok m' ->
  Forall (fun e => truthy (dict_get (snd e) merge_key) = true) m'.
Proof.
  intros Hm. unfold merge_step.
  destruct (truthy (dict_get r merge_key)) eqn:Ht; simpl.
  2: { intros [= <-]. exact Hm. }
  destruct (hashable (dict_get r merge_key)); simpl; [|discriminate].
  pose proof (vdict_set_values
                (fun x => truthy (dict_get x merge_key) = true)
                m (dict_get r merge_key) r Hm Ht) as Hset.
  destruct (vdict_lookup m (dict_get r merge_key)) as [cur|].
  - destruct (py_gt _ _) as [[|]|]; simpl; intros [= <-]; auto.
  - intros [= <-]; auto.
Qed.

Lemma merge_loop_truthy (merge_key : string) (records : list dict) :
  forall m m',
    Forall (fun e => truthy (dict_get (snd e) merge_key) = true) m ->
    merge_loop merge_key m records = Ok m' ->
    Forall (fun e => truthy (dict_get (snd e) merge_key) = true) m'.
Proof.
  induction records as [|r rest IH]; simpl; intros m m' Hm Hrun.
  - injection Hrun as <-. exact Hm.
  - destruct (merge_step merge_key m r) as [m1|] eqn:Hstep; simpl in Hrun;
      [|discriminate].
    eapply IH; [|exact Hrun]. eapply merge_step_truthy; eauto.
Qed.

(** Every survivor has a truthy identity. *)
Lemma merge_records_survivors_truthy (records : list dict) (merge_key : string)
      (out : list dict) :
  fst (merge_records records merge_key) = Ok out ->
  forall r, In r out -> truthy (dict_get r merge_key) = true.
Proof.
  unfold merge_records, silent. simpl.
  destruct (merge_loop merge_key [] records) as [m|] eqn:Hrun; simpl;
    [|discriminate].
  intros [= <-] r Hin. unfold vdict_values in Hin.
  apply in_map_iff in Hin. destruct Hin as (e & <- & He).
  pose proof (merge_loop_truthy merge_key records [] m (Forall_nil _) Hrun) as H.
  eapply Forall_forall in H; eauto.
Qed.

Lemma merge_records_filter (merge_key : string) (keep : dict -> bool)
      (records : list dict) :
  (forall r, keep r = false -> truthy (dict_get r merge_key) = false) ->
  merge_records (filter keep records) merge_key = merge_records records merge_key.
Proof.
  intros Hkeep. unfold merge_records.
  now rewrite (merge_loop_filter merge_key keep records Hkeep).
Qed.

(** C8, as stated, fails: the record without identity is excluded, and no
    warning comes back with the result or goes to the logger. *)
Lemma merge_records_no_warning_counterexample :
  has_field "id" [("v", VInt 1)] = false /\
  merge_records [ [("v", VInt 1)]; [("id", VStr "7"); ("v", VInt 2)] ] "id"
  = (Ok [ [("id", VStr "7"); ("v", VInt 2)] ], []).
Proof. split; reflexivity. Qed.

(** C8, amended: [merge_records] excludes every record that lacks the
    identity field and goes on with the rest of the batch exactly as if
    those records were not there; it returns the surviving records alone
    and reports nothing: no warning is returned or logged. *)
Theorem merge_records_skips_missing_identity (records : list dict)
        (merge_key : string) :
  merge_records records merge_key
  = merge_records (filter (has_field merge_key) records) merge_key /\
  snd (merge_records records merge_key) = [] /\
  (forall out, fst (merge_records records merge_key) = Ok out ->
               forall r, In r out -> has_field merge_key r = true).
Proof.
  split; [|split].
  - symmetry. apply merge_records_filter. intros r Hr.
    unfold has_field in Hr. unfold dict_get.
    now destruct (dict_lookup r merge_key).
  - reflexivity.
  - intros out Hout r Hin.
    pose proof (merge_records_survivors_truthy records merge_key out Hout r Hin) as Ht.
    unfold has_field. unfold dict_get in Ht.
    now destruct (dict_lookup r merge_key).
Qed.

Lemma merge_records_skips_missing_identity_witness :
  has_field "id" [("id", VStr "7"); ("v", VInt 2)] = true.
Proof.
  apply (proj2 (proj2 (merge_records_skips_missing_identity
                         [ [("v", VInt 1)]; [("id", VStr "7"); ("v", VInt 2)] ]
                         "id"))
           [ [("id", VStr "7"); ("v", VInt 2)] ]).
  - reflexivity.
  - simpl. left. reflexivity.
Defined.

(** C10: a record whose identity is present but falsy is dropped like one
    without identity.  The outcome is that of the batch without those
    records, nothing is reported, and no survivor has a falsy identity; so
    two records with the empty string as identity are not merged with each
    other: neither survives. *)
Theorem merge_records_drops_falsy_identity (records : list dict)
        (merge_key : string) :
  merge_records records merge_key
  = merge_records (filter (fun r => truthy (dict_get r merge_key)) records)
                  merge_key /\
  snd (merge_records records merge_key) = [] /\
  (forall out, fst (merge_records records merge_key) = Ok out ->
               forall r, In r out -> truthy (dict_get r merge_key) = true).
Proof.
  split; [|split].
  - symmetry. apply merge_records_filter. auto.
  - reflexivity.
  - apply merge_records_survivors_truthy.
Qed.

Lemma merge_records_drops_falsy_identity_witness :
  merge_records
    [ [("id", VStr ""); ("v", VInt 1)]; [("id", VStr ""); ("v", VInt 2)];
      [("id", VInt 0)]; [("id", VNone)]; [("id", VBool false)];
      [("id", VList [])]; [("id", VDict [])]; [("id", VStr "7")] ] "id"
  = (Ok [ [("id", VStr "7")] ], []) /\
  truthy (dict_get [("id", VStr "7")] "id") = true.
Proof.
  split; [reflexivity|].
  apply (proj2 (proj2 (merge_records_drops_falsy_identity
                         [ [("id", VStr ""); ("v", VInt 1)];
                           [("id", VStr ""); ("v", VInt 2)];
                           [("id", VInt 0)]; [("id", VNone)];
                           [("id", VBool false)]; [("id", VList [])];
                           [("id", VDict [])]; [("id", VStr "7")] ]
                         "id"))
           [ [("id", VStr "7")] ]).
  - reflexivity.
  - simpl. left. reflexivity.
Defined.

(** *** Content hash *)

(** Induction on values that reaches the elements of containers. *)
Lemma value_nested_ind (P : value -> Prop) :
  P VNone ->
  (forall b, P (VBool b)) ->
  (forall z, P (VInt z)) ->
  (forall f, P (VFloat f)) ->
  (forall s, P (VStr s)) ->
  (forall l, Forall P l -> P (VList l)) ->
  (forall d, Forall (fun kv => P (snd kv)) d -> P (VDict d)) ->
  forall v, P v.
Proof.
  intros HN HB HI HF HS HL HD.
  fix IH 1. intros [ | b | z | f | s | l | d ].
  - exact HN.
  - apply HB.
  - apply HI.
  - apply HF.
  - apply HS.
  - apply HL. induction l as [|x l IHl]; constructor; [apply IH|exact IHl].
  - apply HD. induction d as [|[k x] d IHd]; constructor; [apply IH|exact IHd].
Qed.

Lemma leb_trans (a b c : string) :
  String.leb a b = true -> String.leb b c = true -> String.leb a c = true.
Proof.
  unfold String.leb. revert b c.
  induction a as [|ca a IH]; intros [|cb b] [|cc c]; simpl; auto;
    try discriminate.
  unfold Ascii.compare.
  destruct (N.compare_spec (N_of_ascii ca) (N_of_ascii cb)) as [Hab|Hab|Hab];
    destruct (N.compare_spec (N_of_ascii cb) (N_of_ascii cc)) as [Hbc|Hbc|Hbc];
    destruct (N.compare_spec (N_of_ascii ca) (N_of_ascii cc)) as [Hac|Hac|Hac];
    try discriminate; auto; try lia.
  apply IH.
Qed.

(** Inserting two items with different keys commutes. *)
Lemma insert_item_comm {A : Type} (a b : string * A) (l : list (string * A)) :
  fst a <> fst b ->
  insert_item a (insert_item b l) = insert_item b (insert_item a l).
Proof.
  intros Hne. induction l as [|x l IH]; simpl.
  - destruct (String.leb (fst a) (fst b)) eqn:Hab,
             (String.leb (fst b) (fst a)) eqn:Hba; auto.
    + elim Hne. now apply String.leb_antisym.
    + destruct (String.leb_total (fst a) (fst b)); congruence.
  - destruct (String.leb (fst b) (fst x)) eqn:Hbx,
             (String.leb (fst a) (fst x)) eqn:Hax; simpl;
      rewrite ?Hbx, ?Hax;
      destruct (String.leb (fst a) (fst b)) eqn:Hab,
               (String.leb (fst b) (fst a)) eqn:Hba; auto;
      try (elim Hne; now apply String.leb_antisym);
      try (destruct (String.leb_total (fst a) (fst b)); congruence);
      try (rewrite (leb_trans _ _ _ Hab Hbx) in Hax; discriminate);
      try (rewrite (leb_trans _ _ _ Hba Hax) in Hbx; discriminate);
      now rewrite IH.
Qed.

(** Sorting does not depend on the order in which distinct keys arrive. *)
Lemma sort_items_perm {A : Type} (l l' : list (string * A)) :
  Permutation l l' -> NoDup (map fst l) -> sort_items l = sort_items l'.
Proof.
  induction 1 as [|x l l' Hp IH|x y l|l l' l'' Hp1 IH1 Hp2 IH2]; intros Hnd; simpl.
  - reflexivity.
  - inversion Hnd; subst. now rewrite IH.
  - apply insert_item_comm. simpl in Hnd. inversion Hnd as [|? ? Hin _]; subst.
    intros Heq. apply Hin. left. now symmetry.
  - rewrite IH1 by exact Hnd. apply IH2.
    eapply Permutation_NoDup; [|exact Hnd]. now apply Permutation_map.
Qed.

Lemma wf_value_list (l : list value) :
  wf_value (VList l) -> Forall wf_value l.
Proof.
  simpl. induction l as [|x l IH]; intros H; constructor; simpl in H; tauto.
Qed.

Lemma wf_value_dict (d : dict) :
  wf_value (VDict d) ->
  NoDup (map fst d) /\ Forall (fun kv => wf_value (snd kv)) d.
Proof.
  simpl. intros [Hnd H]. split; [exact Hnd|].
  induction d as [|kv d IH]; constructor; simpl in H; try tauto.
  apply IH; [|tauto]. now inversion Hnd.
Qed.

(** The canonical text does not depend on the order of mapping entries. *)
Lemma json_dumps_reorder (v : value) :
  wf_value v -> forall v', reorder v v' -> json_dumps v = json_dumps v'.
Proof.
  induction v as [ | b | z | f | s | l IHl | d IHd ] using value_nested_ind;
    intros Hwf v' Hre; inversion Hre; subst; try reflexivity.
  - (* sequences *)
    apply wf_value_list in Hwf.
    match goal with H : Forall2 reorder l _ |- _ => rename H into Hall end.
    assert (Hmap : map json_dumps l = map json_dumps l').
    { clear Hre. induction Hall as [|x y l l' Hxy Hall IH]; simpl; [reflexivity|].
      inversion IHl; subst. inversion Hwf; subst.
      f_equal; auto. }
    cbn [json_dumps]. now rewrite Hmap.
  - (* mappings *)
    apply wf_value_dict in Hwf. destruct Hwf as [Hnd Hwf].
    match goal with H : Forall2 _ d _ |- _ => rename H into Hall end.
    match goal with H : Permutation _ _ |- _ => rename H into Hperm end.
    assert (Henc : map (fun kv => (fst kv, json_dumps (snd kv))) d
                   = map (fun kv => (fst kv, json_dumps (snd kv))) d').
    { clear Hre Hperm Hnd.
      induction Hall as [|x y l l' [Hk Hxy] Hall IH]; simpl; [reflexivity|].
      inversion IHd; subst. inversion Hwf; subst.
      f_equal; [|auto]. rewrite Hk. f_equal. auto. }
    assert (Hkeys : map fst d = map fst d').
    { clear - Hall. induction Hall as [|x y l l' [Hk _] _ IH]; simpl;
        [reflexivity|]. now rewrite Hk, IH. }
    assert (Hsort : sort_items (map (fun kv => (fst kv, json_dumps (snd kv))) d)
                    = sort_items (map (fun kv => (fst kv, json_dumps (snd kv))) d'')).
    { rewrite Henc. apply sort_items_perm.
      - now apply Permutation_map.
      - rewrite map_map. cbn [fst].
        change (NoDup (map fst d')). now rewrite <- Hkeys. }
    cbn [json_dumps]. now rewrite Hsort.
Qed.

(** An integer's text starts with a digit or a minus sign, a string's with
    a quote: the two never coincide. *)
Lemma json_dumps_str_int (s : string) (z : Z) :
  json_dumps (VStr s) <> json_dumps (VInt z).
Proof.
  simpl. unfold json_string, str_of_Z, NilZero.string_of_int.
  destruct (Z.to_int z) as [[]|[]]; simpl; discriminate.
Qed.

(** C2, as stated, fails: the integer 1 and the float 1.0 are the same
    number, but the records holding them have different digests. *)
Lemma calculate_record_hash_numeric_counterexample :
  py_eq (VInt 1) (VFloat (mkFloat false 1 0)) = true /\
  calculate_record_hash [("a", VInt 1)]
  <> calculate_record_hash [("a", VFloat (mkFloat false 1 0))].
Proof. split; [reflexivity|]. vm_compute. discriminate. Qed.

(** C2, amended: two records that differ only in the order of their
    mapping keys, at any nesting level, have the same digest, and a string
    never has the canonical text of an integer: the string "1" and the
    number 1 hash differently.  Numbers are written as they are
    represented: the integer 1 as [1], the float 1.0 as [1.0]. *)
Theorem calculate_record_hash_key_order (r r' : dict) :
  wf_value (VDict r) ->
  reorder (VDict r) (VDict r') ->
  calculate_record_hash r = calculate_record_hash r' /\
  (forall s z, json_dumps (VStr s) <> json_dumps (VInt z)) /\
  calculate_record_hash [("a", VStr "1")] <> calculate_record_hash [("a", VInt 1)] /\
  json_dumps (VInt 1) = "1" /\
  json_dumps (VFloat (mkFloat false 1 0)) = "1.0".
Proof.
  intros Hwf Hre. split; [|split; [|split; [|split]]].
  - unfold calculate_record_hash.
    now rewrite (json_dumps_reorder (VDict r) Hwf (VDict r') Hre).
  - apply json_dumps_str_int.
  - vm_compute. discriminate.
  - reflexivity.
  - reflexivity.
Qed.

Lemma calculate_record_hash_key_order_witness :
  calculate_record_hash
    [("b", VInt 1); ("a", VDict [("y", VBool true); ("x", VNone)])]
  = calculate_record_hash
      [("a", VDict [("x", VNone); ("y", VBool true)]); ("b", VInt 1)].
Proof.
  apply (calculate_record_hash_key_order
           [("b", VInt 1); ("a", VDict [("y", VBool true); ("x", VNone)])]
           [("a", VDict [("x", VNone); ("y", VBool true)]); ("b", VInt 1)]).
  - simpl. repeat split; repeat constructor; simpl; intuition discriminate.
  - eapply (reorder_dict _ [("b", VInt 1);
                            ("a", VDict [("x", VNone); ("y", VBool true)])]).
    + constructor; [split; [reflexivity|apply reorder_same]|].
      constructor; [|constructor].
      split; [reflexivity|].
      eapply (reorder_dict _ [("y", VBool true); ("x", VNone)]).
      * repeat constructor.
      * apply perm_swap.
    + apply perm_swap.
Defined.

(** *** Date parsing *)

Lemma parse_fulcrum_date_empty (L : DatetimeLib) :
  parse_fulcrum_date L "" = (Ok None, []).
Proof. reflexivity. Qed.

Lemma parse_fulcrum_date_nonempty (L : DatetimeLib) (s : string) :
  s <> "" ->
  parse_fulcrum_date L s
  = match iso_attempt L s with
    | Ok dt => (Ok (Some dt), [])
    | Raise ValueError =>
        match epoch_attempt L s with
        | Ok dt => (Ok (Some dt), [])
        | Raise ValueError | Raise OSError =>
            (Ok None, ["Could not parse date: " ++ s])
        | Raise e => (Raise e, [])
        end
    | Raise e => (Raise e, [])
    end.
Proof.
  intros Hs. unfold parse_fulcrum_date. simpl truthy.
  destruct (String.eqb_spec s ""); [contradiction|]. reflexivity.
Qed.

(** C9, as stated, fails: the empty text matches neither format, and it
    gives [None] without any warning. *)
Lemma parse_fulcrum_date_silent_counterexample :
  parse_fulcrum_date SampleLib.lib "" = (Ok None, []).
Proof. reflexivity. Qed.

(** An error of the second attempt that is neither [ValueError] nor
    [OSError] is not caught: with the sample library the text [inf] makes
    the call raise [OverflowError]. *)
Lemma parse_fulcrum_date_overflow_escapes :
  parse_fulcrum_date SampleLib.lib "inf" = (Raise OverflowError, []).
Proof. reflexivity. Qed.

(** C9, amended: an empty text gives [None] and no warning.  A non-empty
    text gives the datetime of the ISO attempt when that succeeds, else
    the datetime of the epoch-milliseconds attempt when that succeeds; and
    when the ISO attempt fails with [ValueError] and the second attempt
    with [ValueError] or [OSError], it gives [None] and logs one warning
    that quotes the text. *)
Theorem parse_fulcrum_date_cases (L : DatetimeLib) (s : string) :
  (s = "" -> parse_fulcrum_date L s = (Ok None, [])) /\
  (s <> "" ->
   forall dt, iso_attempt L s = Ok dt ->
              parse_fulcrum_date L s = (Ok (Some dt), [])) /\
  (s <> "" -> iso_attempt L s = Raise ValueError ->
   forall dt, epoch_attempt L s = Ok dt ->
              parse_fulcrum_date L s = (Ok (Some dt), [])) /\
  (s <> "" -> iso_attempt L s = Raise ValueError ->
   epoch_attempt L s = Raise ValueError \/ epoch_attempt L s = Raise OSError ->
   parse_fulcrum_date L s = (Ok None, ["Could not parse date: " ++ s])).
Proof.
  split; [|split; [|split]].
  - intros ->. apply parse_fulcrum_date_empty.
  - intros Hs dt Hiso. now rewrite parse_fulcrum_date_nonempty, Hiso.
  - intros Hs Hiso dt Hep. now rewrite parse_fulcrum_date_nonempty, Hiso, Hep.
  - intros Hs Hiso [Hep|Hep]; now rewrite parse_fulcrum_date_nonempty, Hiso, Hep.
Qed.

Lemma parse_fulcrum_date_cases_witness :
  parse_fulcrum_date SampleLib.lib "" = (Ok None, []) /\
  parse_fulcrum_date SampleLib.lib "2024-01-01T00:00:00Z"
  = (Ok (Some 1704067200000), []) /\
  parse_fulcrum_date SampleLib.lib "1704067200000"
  = (Ok (Some 1704067200000), []) /\
  parse_fulcrum_date SampleLib.lib "soon"
  = (Ok None, ["Could not parse date: soon"]).
Proof.
  split; [|split; [|split]].
  - apply (proj1 (parse_fulcrum_date_cases SampleLib.lib "")). reflexivity.
  - apply (proj1 (proj2 (parse_fulcrum_date_cases
                           SampleLib.lib "2024-01-01T00:00:00Z")));
      [discriminate|reflexivity].
  - apply (proj1 (proj2 (proj2 (parse_fulcrum_date_cases
                                  SampleLib.lib "1704067200000"))));
      [discriminate|reflexivity|reflexivity].
  - apply (proj2 (proj2 (proj2 (parse_fulcrum_date_cases SampleLib.lib "soon"))));
      [discriminate|reflexivity|left; reflexivity].
Defined.

(** ** Further properties of the utilities *)

(** *** Token validation *)

Lemma token_re_rest_spec (s : string) :
  token_re_rest s = true <->
  all_token_chars s = true \/
  exists t, s = t ++ newline /\ all_token_chars t = true.
Proof.
  induction s as [|c s IH]; simpl.
  - split; auto.
  - destruct (is_token_char c) eqn:Hc; simpl.
    + rewrite IH. split.
      * intros [H|(t & -> & Ht)]; [now left|].
        right. exists (String c t). simpl. now rewrite Hc.
      * intros [H|(t & Heq & Ht)]; [now left|].
        destruct t as [|c' t]; simpl in Heq.
        -- injection Heq as -> ->. vm_compute in Hc. discriminate.
        -- injection Heq as -> ->. simpl in Ht.
           apply andb_true_iff in Ht. right. exists t. tauto.
    + split.
      * intros H. apply andb_true_iff in H. destruct H as [Hn Hs].
        apply String.eqb_eq in Hs. apply N.eqb_eq in Hn. subst s.
        right. exists "". split; [|reflexivity]. simpl. unfold newline.
        f_equal. rewrite <- (ascii_N_embedding c), Hn. reflexivity.
      * intros [H|(t & Heq & Ht)]; [discriminate|].
        destruct t as [|c' t]; simpl in Heq.
        -- injection Heq as -> ->. reflexivity.
        -- injection Heq as -> ->. simpl in Ht. rewrite Hc in Ht. discriminate.
Qed.

Lemma all_token_chars_app (s t : string) :
  all_token_chars (s ++ t) = all_token_chars s && all_token_chars t.
Proof.
  induction s as [|c s IH]; simpl; [reflexivity|].
  now rewrite IH, andb_assoc.
Qed.

Lemma length_append (s t : string) :
  String.length (s ++ t) = (String.length s + String.length t)%nat.
Proof. induction s as [|c s IH]; simpl; [reflexivity|now rewrite IH]. Qed.

Lemma token_accepted_iff (token : string) :
  validate_api_token token = true <->
  (20 <= String.length token)%nat /\
  (all_token_chars token = true \/
   exists t, token = t ++ newline /\ t <> "" /\ all_token_chars t = true).
Proof.
  unfold validate_api_token. simpl truthy.
  destruct token as [|c s]; [simpl; split; [discriminate|intros [H _]; lia]|].
  cbn [String.eqb negb].
  destruct (Nat.ltb_spec (String.length (String c s)) 20) as [Hlt|Hge].
  - split; [discriminate|intros [H _]; lia].
  - unfold token_re_match. rewrite andb_true_iff, token_re_rest_spec.
    split.
    + intros [Hc [Hs|(t & -> & Ht)]]; (split; [exact Hge|]).
      * left. simpl. now rewrite Hc.
      * right. exists (String c t). simpl. rewrite Hc.
        repeat split; auto. discriminate.
    + intros [_ [H|(t & Heq & Hne & Ht)]].
      * simpl in H. apply andb_true_iff in H. tauto.
      * destruct t as [|c' t]; [contradiction|].
        simpl in Heq. injection Heq as -> ->.
        simpl in Ht. apply andb_true_iff in Ht. split; [tauto|].
        right. exists t. tauto.
Qed.

(** X1: a token is accepted exactly when it has at least 20 characters
    and consists of letters, digits, hyphens and underscores, possibly
    followed by one final line feed. *)
Theorem validate_api_token_spec (token : string) :
  validate_api_token token = true <->
  (20 <= String.length token)%nat /\
  (all_token_chars token = true \/
   exists t, token = t ++ newline /\ t <> "" /\ all_token_chars t = true).
Proof. apply token_accepted_iff. Qed.

Lemma validate_api_token_spec_witness :
  validate_api_token "abcdefghij-ABCDE_0123" = true.
Proof.
  apply (proj2 (validate_api_token_spec "abcdefghij-ABCDE_0123")).
  split; [simpl; lia|left; reflexivity].
Defined.

(** X2: a token of 19 or more valid characters followed by a line feed is
    accepted: the end anchor of the pattern lets one final line feed
    through. *)
Theorem validate_api_token_trailing_newline (t : string) :
  all_token_chars t = true ->
  (19 <= String.length t)%nat ->
  validate_api_token (t ++ newline) = true.
Proof.
  intros Ht Hlen. apply token_accepted_iff. split.
  - rewrite length_append. simpl. lia.
  - right. exists t. repeat split; auto.
    intros ->. simpl in Hlen. lia.
Qed.

Lemma validate_api_token_trailing_newline_witness :
  validate_api_token ("abcdefghij-ABCDE_012" ++ newline) = true.
Proof.
  apply (validate_api_token_trailing_newline "abcdefghij-ABCDE_012").
  - reflexivity.
  - simpl. lia.
Defined.

(** *** File names *)

Lemma in_chars_append (c : ascii) (s t : string) :
  in_chars c (s ++ t) = in_chars c s || in_chars c t.
Proof.
  induction s as [|c' s IH]; simpl; [reflexivity|].
  now rewrite IH, orb_assoc.
Qed.

(** Replacing [old] by an underscore removes [old] and brings in nothing
    but underscores. *)
Lemma str_replace_absent (old c : ascii) (s : string) :
  c <> "_"%char ->
  (c = old \/ in_chars c s = false) ->
  in_chars c (str_replace old "_" s) = false.
Proof.
  intros Hc H. induction s as [|c' s IH]; simpl; [reflexivity|].
  rewrite in_chars_append.
  assert (Hs : c = old \/ in_chars c s = false).
  { destruct H as [H|H]; [now left|]. simpl in H.
    apply orb_false_iff in H. tauto. }
  rewrite (IH Hs), orb_false_r.
  destruct (Ascii.eqb_spec c' old) as [->|Hne]; simpl.
  - rewrite orb_false_r. now apply Ascii.eqb_neq.
  - rewrite orb_false_r. destruct H as [->|H].
    + apply Ascii.eqb_neq. congruence.
    + simpl in H. apply orb_false_iff in H. tauto.
Qed.

Lemma str_replace_fold_absent (chars : list ascii) (c : ascii) :
  c <> "_"%char ->
  forall s, In c chars \/ in_chars c s = false ->
            in_chars c (fold_left (fun f char => str_replace char "_" f) chars s)
            = false.
Proof.
  intros Hc. induction chars as [|old chars IH]; simpl; intros s H.
  - destruct H as [[]|H]. exact H.
  - apply IH. destruct H as [[->|H]|H].
    + right. apply str_replace_absent; auto.
    + now left.
    + right. apply str_replace_absent; auto.
Qed.

Lemma str_replace_length (old : ascii) (s : string) :
  String.length (str_replace old "_" s) = String.length s.
Proof.
  induction s as [|c s IH]; simpl; [reflexivity|].
  rewrite length_append, IH. now destruct (Ascii.eqb c old).
Qed.

Lemma str_replace_fold_length (chars : list ascii) (s : string) :
  String.length (fold_left (fun f char => str_replace char "_" f) chars s)
  = String.length s.
Proof.
  revert s. induction chars as [|old chars IH]; simpl; intros s; [reflexivity|].
  now rewrite IH, str_replace_length.
Qed.

Lemma str_replace_none (old : ascii) (new s : string) :
  in_chars old s = false -> str_replace old new s = s.
Proof.
  induction s as [|c s IH]; simpl; intros H; [reflexivity|].
  apply orb_false_iff in H. destruct H as [Hc Hs].
  rewrite Ascii.eqb_sym in Hc. rewrite Hc, (IH Hs). reflexivity.
Qed.

Lemma str_replace_fold_none (chars : list ascii) (s : string) :
  (forall c, In c chars -> in_chars c s = false) ->
  fold_left (fun f char => str_replace char "_" f) chars s = s.
Proof.
  induction chars as [|old chars IH]; simpl; intros H; [reflexivity|].
  rewrite str_replace_none by auto. apply IH. auto.
Qed.

(** Stripping and cutting keep only characters that were there. *)
Lemma str_lstrip_chars (chars s : string) (c : ascii) :
  in_chars c (str_lstrip chars s) = true -> in_chars c s = true.
Proof.
  induction s as [|c' s IH]; simpl; [auto|].
  destruct (in_chars c' chars); simpl; [|auto].
  intros H. rewrite (IH H). apply orb_true_r.
Qed.

Lemma str_rstrip_chars (chars s : string) (c : ascii) :
  in_chars c (str_rstrip chars s) = true -> in_chars c s = true.
Proof.
  induction s as [|c' s IH]; simpl; [auto|].
  destruct (String.eqb (str_rstrip chars s) "" && in_chars c' chars);
    simpl; [discriminate|].
  intros H. apply orb_true_iff in H. destruct H as [H|H].
  - now rewrite H.
  - rewrite (IH H). apply orb_true_r.
Qed.

Lemma str_take_chars (n : nat) (s : string) (c : ascii) :
  in_chars c (str_take n s) = true -> in_chars c s = true.
Proof.
  revert s. induction n as [|n IH]; intros [|c' s]; simpl; try discriminate.
  intros H. apply orb_true_iff in H. destruct H as [H|H].
  - now rewrite H.
  - rewrite (IH s H). apply orb_true_r.
Qed.

Lemma str_take_length (n : nat) (s : string) :
  (String.length (str_take n s) <= n)%nat.
Proof.
  revert s. induction n as [|n IH]; intros [|c s]; simpl; try lia.
  specialize (IH s). lia.
Qed.

Lemma str_lstrip_length (chars s : string) :
  (String.length (str_lstrip chars s) <= String.length s)%nat.
Proof.
  induction s as [|c s IH]; simpl; [lia|].
  destruct (in_chars c chars); simpl; lia.
Qed.

Lemma str_rstrip_length (chars s : string) :
  (String.length (str_rstrip chars s) <= String.length s)%nat.
Proof.
  induction s as [|c s IH]; simpl; [lia|].
  destruct (String.eqb (str_rstrip chars s) "" && in_chars c chars); simpl; lia.
Qed.

Lemma str_lstrip_no_lead (chars s : string) :
  no_lead chars (str_lstrip chars s) = true.
Proof.
  induction s as [|c s IH]; simpl; [reflexivity|].
  destruct (in_chars c chars) eqn:Hc; [exact IH|]. simpl. now rewrite Hc.
Qed.

Lemma str_lstrip_id (chars s : string) :
  no_lead chars s = true -> str_lstrip chars s = s.
Proof.
  destruct s as [|c s]; simpl; [reflexivity|].
  now destruct (in_chars c chars).
Qed.

Lemma str_rstrip_no_lead (chars s : string) :
  no_lead chars s = true -> no_lead chars (str_rstrip chars s) = true.
Proof.
  destruct s as [|c s]; simpl; [reflexivity|]. intros Hc.
  apply negb_true_iff in Hc. rewrite Hc, andb_false_r. simpl. now rewrite Hc.
Qed.

Lemma str_rstrip_idem (chars s : string) :
  str_rstrip chars (str_rstrip chars s) = str_rstrip chars s.
Proof.
  induction s as [|c s IH]; simpl; [reflexivity|].
  destruct (String.eqb_spec (str_rstrip chars s) "") as [He|Hne]; simpl.
  - destruct (in_chars c chars) eqn:Hc; simpl; [reflexivity|].
    rewrite He. simpl. now rewrite Hc.
  - rewrite IH.
    destruct (String.eqb_spec (str_rstrip chars s) ""); [contradiction|].
    reflexivity.
Qed.

Lemma str_strip_idem (chars s : string) :
  str_strip chars (str_strip chars s) = str_strip chars s.
Proof.
  unfold str_strip.
  rewrite (str_lstrip_id chars (str_rstrip chars (str_lstrip chars s))).
  - apply str_rstrip_idem.
  - apply str_rstrip_no_lead, str_lstrip_no_lead.
Qed.

Lemma str_take_no_lead (chars : string) (n : nat) (s : string) :
  no_lead chars s = true -> no_lead chars (str_take n s) = true.
Proof. destruct n, s; simpl; auto. Qed.

Lemma str_strip_chars (chars s : string) (c : ascii) :
  in_chars c (str_strip chars s) = true -> in_chars c s = true.
Proof.
  unfold str_strip. intros H.
  now apply str_lstrip_chars with chars, str_rstrip_chars with chars.
Qed.

Lemma str_strip_length (chars s : string) :
  (String.length (str_strip chars s) <= String.length s)%nat.
Proof.
  unfold str_strip.
  pose proof (str_rstrip_length chars (str_lstrip chars s)).
  pose proof (str_lstrip_length chars s). lia.
Qed.

Lemma invalid_chars_no_underscore (c : ascii) :
  in_chars c invalid_chars = true -> c <> "_"%char.
Proof. intros H ->. vm_compute in H. discriminate. Qed.

Lemma in_chars_In (c : ascii) (s : string) :
  in_chars c s = true -> In c (list_ascii_of_string s).
Proof.
  induction s as [|c' s IH]; simpl; [discriminate|].
  intros H. apply orb_true_iff in H. destruct H as [H|H].
  - left. symmetry. now apply Ascii.eqb_eq.
  - right. auto.
Qed.

Lemma sanitize_filename_bounds (filename : string) :
  (String.length (sanitize_filename filename) <= 200)%nat /\
  forall c, in_chars c invalid_chars = true ->
            in_chars c (sanitize_filename filename) = false.
Proof.
  unfold sanitize_filename.
  set (replaced := fold_left _ _ filename).
  set (stripped := str_strip " ." replaced).
  split.
  - destruct (Nat.ltb_spec 200 (String.length stripped)); [|lia].
    apply str_take_length.
  - intros c Hc.
    assert (Hrep : in_chars c replaced = false).
    { apply str_replace_fold_absent.
      - now apply invalid_chars_no_underscore.
      - left. now apply in_chars_In. }
    assert (Hstr : in_chars c stripped = false).
    { destruct (in_chars c stripped) eqn:H; [|reflexivity].
      apply str_strip_chars in H. congruence. }
    destruct (200 <? String.length stripped)%nat; [|exact Hstr].
    destruct (in_chars c (str_take 200 stripped)) eqn:H; [|reflexivity].
    apply str_take_chars in H. congruence.
Qed.

(** X3: a sanitized name has at most 200 characters and holds none of the
    nine characters that are replaced. *)
Theorem sanitize_filename_safe (filename : string) :
  (String.length (sanitize_filename filename) <= 200)%nat /\
  forall c, in_chars c invalid_chars = true ->
            in_chars c (sanitize_filename filename) = false.
Proof. apply sanitize_filename_bounds. Qed.

Lemma sanitize_filename_safe_witness :
  in_chars "/"%char (sanitize_filename "a/b:c") = false.
Proof.
  apply (proj2 (sanitize_filename_safe "a/b:c")). reflexivity.
Defined.

(** X4: a sanitized name never starts with a space or a dot. *)
Theorem sanitize_filename_no_lead (filename : string) :
  no_lead " ." (sanitize_filename filename) = true.
Proof.
  unfold sanitize_filename.
  set (stripped := str_strip " ." _).
  assert (H : no_lead " ." stripped = true).
  { unfold stripped, str_strip. apply str_rstrip_no_lead, str_lstrip_no_lead. }
  destruct (200 <? String.length stripped)%nat; [|exact H].
  now apply str_take_no_lead.
Qed.

(** X5: on a name of at most 200 characters sanitizing is idempotent:
    the result has nothing left to replace or strip. *)
Theorem sanitize_filename_idempotent (filename : string) :
  (String.length filename <= 200)%nat ->
  sanitize_filename (sanitize_filename filename) = sanitize_filename filename.
Proof.
  intros Hlen.
  assert (Hshort : forall f, (String.length f <= 200)%nat ->
            sanitize_filename f
            = str_strip " ." (fold_left (fun f char => str_replace char "_" f)
                                        (list_ascii_of_string invalid_chars) f)).
  { intros f Hf. unfold sanitize_filename.
    set (stripped := str_strip " ." _).
    destruct (Nat.ltb_spec 200 (String.length stripped)) as [H|H]; [|reflexivity].
    pose proof (str_strip_length " ."
                  (fold_left (fun f char => str_replace char "_" f)
                             (list_ascii_of_string invalid_chars) f)) as Hs.
    rewrite str_replace_fold_length in Hs. fold stripped in Hs. lia. }
  pose proof (sanitize_filename_bounds filename) as [Hle Hfree].
  rewrite (Hshort _ Hle).
  rewrite str_replace_fold_none.
  - rewrite (Hshort _ Hlen). apply str_strip_idem.
  - intros c Hc. apply Hfree.
    clear - Hc. vm_compute in Hc.
    repeat (destruct Hc as [<-|Hc]; [reflexivity|]). destruct Hc.
Qed.

Lemma sanitize_filename_idempotent_witness :
  sanitize_filename (sanitize_filename " .report<v2>.csv. ")
  = sanitize_filename " .report<v2>.csv. ".
Proof.
  apply (sanitize_filename_idempotent " .report<v2>.csv. "). simpl. lia.
Defined.

(** Beyond 200 characters the cut can leave a trailing space, which a
    second pass strips. *)
Lemma sanitize_filename_long_not_idempotent :
  sanitize_filename (sanitize_filename (str_repeat 199 "a" ++ " bc"))
  <> sanitize_filename (str_repeat 199 "a" ++ " bc").
Proof. vm_compute. discriminate. Qed.

(** *** Form values *)

(** X6: [extract_form_values] fails only with [TypeError], and only when
    the record has no [form_values] of its own and its [record] entry is
    not a mapping. *)
Theorem extract_form_values_failure (record : dict) (e : exn) :
  extract_form_values record = Raise e ->
  e = TypeError /\
  dict_lookup record "form_values" = None /\
  exists inner, dict_lookup record "record" = Some inner /\
                is_dict inner = false.
Proof.
  unfold extract_form_values.
  destruct (dict_lookup record "form_values") as [fv|]; [discriminate|].
  destruct (dict_lookup record "record") as [inner|]; [|discriminate].
  intros H.
  assert (Hnd : is_dict inner = false).
  { destruct inner as [ | | | | | |d]; try reflexivity.
    simpl in H. destruct (dict_lookup d "form_values"); discriminate. }
  split; [|split; [reflexivity|exists inner; auto]].
  destruct inner as [ | b | z | f | s | l | d ]; simpl in H;
    try (injection H as <-; reflexivity); try discriminate.
  - destruct (str_contains "form_values" s); [|discriminate].
    now injection H as <-.
  - destruct (existsb _ l); [|discriminate]. now injection H as <-.
Qed.

Lemma extract_form_values_failure_witness :
  exists inner, dict_lookup [("record", VStr "no form_values here")] "record"
                = Some inner /\ is_dict inner = false.
Proof.
  apply (extract_form_values_failure
           [("record", VStr "no form_values here")] TypeError).
  reflexivity.
Defined.

(** *** Filtering *)

Lemma filter_loop_spec (field : string) (value : value) (operator : string)
      (records : list dict) :
  forall filtered out,
    filter_loop field value operator records filtered = Ok out ->
    out = (filtered ++ filter (filter_keeps field value operator) records)%list.
Proof.
  induction records as [|r rest IH]; simpl; intros filtered out H.
  - injection H as <-. now rewrite app_nil_r.
  - unfold filter_keeps at 1.
    destruct (filter_test operator (dict_get r field) value) as [keep|]; simpl in H;
      [|discriminate].
    apply IH in H. destruct keep; [|exact H].
    now rewrite <- app_assoc in H.
Qed.

(** X7: whatever the operator, a result of [filter_records_by_field] is
    the input with some records left out: the records that pass the
    operator's test on their own field, in input order. *)
Theorem filter_records_by_field_filter (records : list dict) (field : string)
        (value : value) (operator : string) (out : list dict) :
  filter_records_by_field records field value operator = Ok out ->
  out = filter (filter_keeps field value operator) records.
Proof. intros H. now apply filter_loop_spec in H. Qed.

Lemma filter_records_by_field_filter_witness :
  [[("s", VStr "open")]]
  = filter (filter_keeps "s" (VStr "open") "==")
           [[("s", VStr "open")]; [("s", VStr "done")]; [("t", VInt 1)]].
Proof.
  apply (filter_records_by_field_filter
           [[("s", VStr "open")]; [("s", VStr "done")]; [("t", VInt 1)]]
           "s" (VStr "open") "==").
  reflexivity.
Defined.

(** A loop whose test never raises returns the filtered list. *)
Lemma filter_loop_total (field : string) (value : value) (operator : string)
      (records : list dict) :
  (forall r, In r records ->
             exists b, filter_test operator (dict_get r field) value = Ok b) ->
  forall filtered,
    filter_loop field value operator records filtered
    = Ok (filtered ++ filter (filter_keeps field value operator) records)%list.
Proof.
  induction records as [|r rest IH]; simpl; intros Hok filtered.
  - now rewrite app_nil_r.
  - destruct (Hok r (or_introl eq_refl)) as [b Hb].
    unfold filter_keeps at 1. rewrite Hb. simpl.
    rewrite IH by auto. destruct b; [now rewrite <- app_assoc|reflexivity].
Qed.

Lemma filter_complement {A : Type} (p : A -> bool) (l : list A) :
  Permutation (filter p l ++ filter (fun x => negb (p x)) l) l.
Proof.
  induction l as [|x l IH]; simpl; [constructor|].
  destruct (p x); simpl.
  - now constructor.
  - apply Permutation_sym, Permutation_cons_app, Permutation_sym, IH.
Qed.

(** Numbers are compared by value: the field [10**23] is not equal to the
    float [1e23], and is equal to the float [1e22] times ten only as an
    integer. *)
Lemma filter_records_by_field_int_float :
  filter_records_by_field [ [("x", VInt (10 ^ 23))] ] "x"
                          (VFloat (mkFloat false 1 23)) "==" = Ok [] /\
  filter_records_by_field [ [("x", VInt (10 ^ 23))] ] "x"
                          (VFloat (mkFloat false 1 23)) "!="
  = Ok [ [("x", VInt (10 ^ 23))] ] /\
  filter_records_by_field [ [("x", VInt (10 ^ 22))] ] "x"
                          (VFloat (mkFloat false 1 22)) "=="
  = Ok [ [("x", VInt (10 ^ 22))] ].
Proof. repeat split; vm_compute; reflexivity. Qed.

(** X8: the operators [==] and [!=] never fail; they split the records
    into those whose field equals the value (a missing field counts as
    [None]) and the others, each in input order, and every record is in
    exactly one of the two results. *)
Theorem filter_records_by_field_eq_ne (records : list dict) (field : string)
        (value : value) :
  let same := fun r => py_eq (dict_get r field) value in
  filter_records_by_field records field value "==" = Ok (filter same records) /\
  filter_records_by_field records field value "!="
  = Ok (filter (fun r => negb (same r)) records) /\
  Permutation (filter same records ++ filter (fun r => negb (same r)) records)
              records.
Proof.
  intros same. unfold filter_records_by_field. split; [|split].
  - rewrite filter_loop_total by (intros r _; eexists; reflexivity).
    reflexivity.
  - rewrite filter_loop_total by (intros r _; eexists; reflexivity).
    reflexivity.
  - apply filter_complement.
Qed.

(** X9: an operator that the method does not know keeps no record and
    raises nothing. *)
Theorem filter_records_by_field_unknown (records : list dict) (field : string)
        (value : value) (operator : string) :
  ~ In operator filter_operators ->
  filter_records_by_field records field value operator = Ok [].
Proof.
  intros Hop.
  assert (Htest : forall v, filter_test operator v value = Ok false).
  { intros v. unfold filter_test.
    repeat match goal with
           | |- context [String.eqb operator ?s] =>
               destruct (String.eqb_spec operator s) as [->|_];
               [exfalso; apply Hop; simpl; tauto|]
           end.
    reflexivity. }
  unfold filter_records_by_field.
  rewrite filter_loop_total by (intros r _; eexists; apply Htest).
  simpl. induction records as [|r rest IH]; simpl; [reflexivity|].
  unfold filter_keeps at 1. now rewrite Htest.
Qed.

Lemma filter_records_by_field_unknown_witness :
  filter_records_by_field [[("s", VStr "open")]] "s" (VStr "open") "=" = Ok [].
Proof.
  apply filter_records_by_field_unknown.
  simpl. intuition discriminate.
Defined.

(** The general ordering operator agrees with [py_gt] on [>]. *)
Lemma py_richcmp_gt (a : value) :
  forall b, py_richcmp OpGt a b = py_gt a b.
Proof.
  induction a as [ | x | z | f | s | l IHl | d IHd ] using value_nested_ind;
    intros b.
  - reflexivity.
  - simpl. destruct (as_num b); try reflexivity; now destruct (num_compare _ _).
  - simpl. destruct (as_num b); try reflexivity; now destruct (num_compare _ _).
  - simpl. destruct (as_num b); try reflexivity; now destruct (num_compare _ _).
  - destruct b; reflexivity.
  - destruct b as [ | | | | | lb | ]; try reflexivity. simpl.
    revert lb. induction IHl as [|x xs Hx _ IHxs]; intros [|y ys];
      try reflexivity.
    destruct (py_eq x y); [apply IHxs|apply Hx].
  - reflexivity.
Qed.

(** The ordering operators and membership raise nothing but [TypeError]. *)
Lemma py_richcmp_raises (op : cmp_op) (a : value) :
  forall b e, py_richcmp op a b = Raise e -> e = TypeError.
Proof.
  induction a as [ | x | z | f | s | l IHl | d IHd ] using value_nested_ind;
    intros b e H; simpl in H;
    try (destruct b; simpl in H; congruence).
  destruct b as [ | | | | | lb | ]; try congruence.
  revert lb H. induction IHl as [|x xs Hx _ IHxs]; intros [|y ys] H;
    try discriminate.
  destruct (py_eq x y); eauto.
Qed.

Lemma py_in_raises (item container : value) (e : exn) :
  py_in item container = Raise e -> e = TypeError.
Proof.
  unfold py_in. destruct container; try congruence.
  - destruct item; congruence.
  - destruct (hashable item); simpl; [|congruence].
    destruct item; congruence.
Qed.

Lemma filter_test_raises (operator : string) (v value : value) (e : exn) :
  filter_test operator v value = Raise e -> e = TypeError.
Proof.
  unfold filter_test.
  repeat match goal with
         | |- context [String.eqb operator ?s] => destruct (String.eqb operator s)
         end;
    try discriminate; eauto using py_richcmp_raises, py_in_raises.
  - destruct v; try discriminate. apply py_in_raises.
  - destruct v; try discriminate.
    destruct (py_in value (VStr s)) eqn:H; simpl; [discriminate|].
    intros [= <-]. eapply py_in_raises; eauto.
Qed.

Lemma filter_loop_raises (field : string) (value : value) (operator : string)
      (records : list dict) (r : dict) :
  In r records ->
  filter_test operator (dict_get r field) value = Raise TypeError ->
  forall filtered,
    filter_loop field value operator records filtered = Raise TypeError.
Proof.
  intros Hin Hr. induction records as [|x rest IH]; [destruct Hin|].
  intros filtered. simpl.
  destruct (filter_test operator (dict_get x field) value) as [keep|e] eqn:Hx.
  - simpl. destruct Hin as [->|Hin]; [congruence|]. now apply IH.
  - simpl. f_equal. eapply filter_test_raises; eauto.
Qed.

(** X10: with one of the ordering operators, a single record whose field
    is missing or [None] makes the whole call fail with [TypeError]. *)
Theorem filter_records_by_field_ordering_none (records : list dict)
        (field : string) (value : value) (operator : string) (r : dict) :
  In operator [">"; "<"; ">="; "<="] ->
  In r records ->
  dict_get r field = VNone ->
  filter_records_by_field records field value operator = Raise TypeError.
Proof.
  intros Hop Hin Hnone. unfold filter_records_by_field.
  apply filter_loop_raises with r; [exact Hin|].
  rewrite Hnone. simpl in Hop.
  destruct Hop as [<-|[<-|[<-|[<-|[]]]]]; reflexivity.
Qed.

Lemma filter_records_by_field_ordering_none_witness :
  filter_records_by_field [[("n", VInt 3)]; [("m", VInt 1)]] "n" (VInt 2) ">"
  = Raise TypeError.
Proof.
  apply (filter_records_by_field_ordering_none _ _ _ _ [("m", VInt 1)]).
  - simpl. tauto.
  - simpl. tauto.
  - reflexivity.
Defined.

(** X11: with a text to look for, [contains] keeps the records whose
    field is text holding it and [not_contains] those whose field is text
    without it; a record whose field is missing or not text is in neither
    result. *)
Theorem filter_records_by_field_contains (records : list dict)
        (field sub : string) :
  filter_records_by_field records field (VStr sub) "contains"
  = Ok (filter (field_contains field sub) records) /\
  filter_records_by_field records field (VStr sub) "not_contains"
  = Ok (filter (fun r => field_is_text field r && negb (field_contains field sub r))
               records).
Proof.
  unfold filter_records_by_field. split.
  - rewrite filter_loop_total.
    + simpl. f_equal. apply filter_ext. intros r.
      unfold filter_keeps, field_contains, filter_test. simpl.
      now destruct (dict_get r field).
    + intros r _. unfold filter_test. simpl.
      destruct (dict_get r field); simpl; eauto.
  - rewrite filter_loop_total.
    + simpl. f_equal. apply filter_ext. intros r.
      unfold filter_keeps, field_contains, field_is_text, filter_test. simpl.
      now destruct (dict_get r field).
    + intros r _. unfold filter_test. simpl.
      destruct (dict_get r field); simpl; eauto.
Qed.

(** *** Dictionaries with string keys *)

Lemma dict_lookup_dict_set {A : Type} (m : list (string * A)) (k k' : string)
      (v : A) :
  dict_lookup (dict_set m k v) k'
  = if String.eqb k k' then Some v else dict_lookup m k'.
Proof.
  induction m as [|[k0 v0] m IH]; simpl.
  - reflexivity.
  - destruct (String.eqb_spec k0 k) as [->|Hne]; simpl.
    + now destruct (String.eqb k k').
    + rewrite IH. destruct (String.eqb_spec k0 k') as [->|Hne'].
      * destruct (String.eqb_spec k k'); [congruence|reflexivity].
      * reflexivity.
Qed.

Lemma dict_set_keys {A : Type} (m : list (string * A)) (k : string) (v : A) :
  map fst (dict_set m k v) = add_new (map fst m) k.
Proof.
  unfold add_new. induction m as [|[k0 v0] m IH]; simpl; [reflexivity|].
  rewrite (String.eqb_sym k k0).
  destruct (String.eqb k0 k); simpl; [reflexivity|].
  rewrite IH. now destruct (existsb (String.eqb k) (map fst m)).
Qed.

Lemma existsb_eqb_In (k : string) (l : list string) :
  existsb (String.eqb k) l = true <-> In k l.
Proof.
  rewrite existsb_exists. split.
  - intros (x & Hin & Heq). apply String.eqb_eq in Heq. now subst.
  - intros H. exists k. split; [exact H|apply String.eqb_refl].
Qed.

Lemma add_new_In (seen : list string) (k x : string) :
  In x (add_new seen k) <-> In x seen \/ x = k.
Proof.
  unfold add_new. destruct (existsb (String.eqb k) seen) eqn:H.
  - apply existsb_eqb_In in H. split; [tauto|]. intros [Hx| ->]; auto.
  - rewrite in_app_iff. simpl. intuition (subst; auto).
Qed.

Lemma add_new_NoDup (seen : list string) (k : string) :
  NoDup seen -> NoDup (add_new seen k).
Proof.
  intros Hnd. unfold add_new.
  destruct (existsb (String.eqb k) seen) eqn:H; [exact Hnd|].
  apply NoDup_app; [exact Hnd|repeat constructor; simpl; tauto|].
  intros x Hx [<-|[]].
  apply existsb_eqb_In in Hx. congruence.
Qed.

Lemma fold_add_new_In (ks seen : list string) (x : string) :
  In x (fold_left add_new ks seen) <-> In x seen \/ In x ks.
Proof.
  revert seen. induction ks as [|k ks IH]; simpl; intros seen; [tauto|].
  rewrite IH, add_new_In. split; intros H; intuition (subst; auto).
Qed.

Lemma fold_add_new_NoDup (ks seen : list string) :
  NoDup seen -> NoDup (fold_left add_new ks seen).
Proof.
  revert seen. induction ks as [|k ks IH]; simpl; intros seen H; [exact H|].
  apply IH, add_new_NoDup, H.
Qed.

Lemma has_field_In (k : string) (r : dict) :
  has_field k r = true <-> In k (map fst r).
Proof.
  unfold has_field. induction r as [|[k0 v0] r IH]; simpl.
  - split; [discriminate|tauto].
  - destruct (String.eqb_spec k0 k) as [->|Hne].
    + split; auto.
    + rewrite IH. split; [tauto|]. intros [H|H]; [congruence|exact H].
Qed.

(** The collected field names are exactly the keys of the records, each
    once. *)
Lemma all_fields_In (records : list dict) (x : string) :
  In x (all_fields records) <-> existsb (has_field x) records = true.
Proof.
  unfold all_fields.
  change (fun fields k => if existsb (String.eqb k) fields then fields
                          else (fields ++ [k])%list) with add_new.
  assert (H : forall seen,
             In x (fold_left (fun fields record =>
                                fold_left add_new (map fst record) fields)
                             records seen)
             <-> In x seen \/ existsb (has_field x) records = true).
  { induction records as [|r rest IH]; simpl; intros seen.
    - split; [tauto|]. intros [H|H]; [exact H|discriminate].
    - rewrite IH, fold_add_new_In, orb_true_iff, has_field_In. tauto. }
  rewrite H. simpl. tauto.
Qed.

Lemma all_fields_NoDup (records : list dict) : NoDup (all_fields records).
Proof.
  unfold all_fields.
  change (fun fields k => if existsb (String.eqb k) fields then fields
                          else (fields ++ [k])%list) with add_new.
  assert (H : forall seen, NoDup seen ->
             NoDup (fold_left (fun fields record =>
                                 fold_left add_new (map fst record) fields)
                              records seen)).
  { induction records as [|r rest IH]; simpl; intros seen Hs; [exact Hs|].
    apply IH, fold_add_new_NoDup, Hs. }
  apply H. constructor.
Qed.

(** *** Field mapping *)

Lemma mapping_fold_lookup (g : string -> string) (fields : list string)
      (field : string) :
  forall mapping,
    dict_lookup (fold_left (fun m f => dict_set m f (g f)) fields mapping) field
    = if existsb (String.eqb field) fields then Some (g field)
      else dict_lookup mapping field.
Proof.
  induction fields as [|f fields IH]; simpl; intros mapping; [reflexivity|].
  rewrite IH, dict_lookup_dict_set, (String.eqb_sym field f).
  destruct (existsb (String.eqb field) fields); [now rewrite orb_true_r|].
  rewrite orb_false_r.
  destruct (String.eqb_spec f field) as [->|]; reflexivity.
Qed.

Lemma create_field_mapping_entries (records : list dict)
      (custom_names : option (list (string * string))) (field : string) :
  records <> [] ->
  dict_lookup (create_field_mapping records custom_names) field
  = if existsb (has_field field) records
    then Some (clean_name custom_names field) else None.
Proof.
  intros Hne.
  destruct records as [|r rest]; [contradiction|].
  unfold create_field_mapping. rewrite mapping_fold_lookup. simpl dict_lookup.
  destruct (existsb (String.eqb field) (all_fields (r :: rest))) eqn:Hin.
  - apply existsb_eqb_In, all_fields_In in Hin. now rewrite Hin.
  - destruct (existsb (has_field field) (r :: rest)) eqn:Hex; [|reflexivity].
    apply all_fields_In, existsb_eqb_In in Hex. congruence.
Qed.

(** X12: for a non-empty batch the mapping has an entry exactly for the
    fields that occur in some record.  A field that occurs maps to its
    custom name when the custom names hold one for it; when they hold
    none, or none are given, a field [_rest] maps to [rest] (one leading
    underscore is removed, no more) and a field that does not start with
    an underscore maps to itself.  A field that occurs nowhere has no
    entry, whatever the custom names say, and an empty batch gives the
    empty mapping. *)
Theorem create_field_mapping_lookup (records : list dict)
        (custom_names : option (list (string * string))) (field : string) :
  create_field_mapping [] custom_names = [] /\
  (records <> [] ->
   let mapped := dict_lookup (create_field_mapping records custom_names) field in
   (existsb (has_field field) records = false -> mapped = None) /\
   (existsb (has_field field) records = true ->
    (forall names name,
        custom_names = Some names -> dict_lookup names field = Some name ->
        mapped = Some name) /\
    (custom_names = None \/
     (exists names, custom_names = Some names /\ dict_lookup names field = None) ->
     (forall rest, field = String "_" rest -> mapped = Some rest) /\
     ((forall rest, field <> String "_" rest) -> mapped = Some field)))).
Proof.
  split; [reflexivity|]. intros Hne mapped. unfold mapped.
  rewrite (create_field_mapping_entries records custom_names field Hne).
  split; [intros ->; reflexivity|]. intros ->. split.
  - intros names name -> Hname. unfold clean_name.
    destruct names as [|entry names]; [discriminate Hname|].
    now rewrite Hname.
  - intros Hnone.
    assert (Hdefault : clean_name custom_names field
                       = if String.prefix "_" field then str_drop 1 field else field).
    { unfold clean_name. destruct Hnone as [->|(names & -> & Hnames)];
        [reflexivity|].
      destruct names as [|entry names]; [reflexivity|]. now rewrite Hnames. }
    rewrite Hdefault. split.
    + intros rest ->. simpl. now destruct rest.
    + intros Hplain. destruct field as [|c rest]; [reflexivity|].
      destruct (Ascii.eqb_spec c "_") as [->|Hc].
      * now destruct (Hplain rest).
      * change (String.prefix "_" (String c rest))
          with (if ascii_dec "_" c then String.prefix "" rest else false).
        destruct (ascii_dec "_" c) as [<-|_]; [now destruct Hc|reflexivity].
Qed.

Lemma create_field_mapping_lookup_witness :
  dict_lookup (create_field_mapping
                 [[("_status", VStr "open"); ("name", VStr "A")]]
                 (Some [("name", "Name"); ("gone", "Gone")])) "name"
  = Some "Name" /\
  dict_lookup (create_field_mapping
                 [[("_status", VStr "open"); ("name", VStr "A")]]
                 (Some [("name", "Name"); ("gone", "Gone")])) "_status"
  = Some "status" /\
  dict_lookup (create_field_mapping
                 [[("_status", VStr "open"); ("name", VStr "A")]]
                 (Some [("name", "Name"); ("gone", "Gone")])) "gone"
  = None.
Proof.
  assert (Hne : [[("_status", VStr "open"); ("name", VStr "A")]] <> @nil dict)
    by discriminate.
  split; [|split].
  - exact (proj1 (proj2 (proj2 (create_field_mapping_lookup
                   [[("_status", VStr "open"); ("name", VStr "A")]]
                   (Some [("name", "Name"); ("gone", "Gone")]) "name") Hne)
                   eq_refl)
                 [("name", "Name"); ("gone", "Gone")] "Name" eq_refl eq_refl).
  - exact (proj1 (proj2 (proj2 (proj2 (create_field_mapping_lookup
                   [[("_status", VStr "open"); ("name", VStr "A")]]
                   (Some [("name", "Name"); ("gone", "Gone")]) "_status") Hne)
                   eq_refl)
                 (or_intror (ex_intro _ [("name", "Name"); ("gone", "Gone")]
                                      (conj eq_refl eq_refl))))
                 "status" eq_refl).
  - exact (proj1 (proj2 (create_field_mapping_lookup
                   [[("_status", VStr "open"); ("name", VStr "A")]]
                   (Some [("name", "Name"); ("gone", "Gone")]) "gone") Hne)
                 eq_refl).
Defined.

(** X13: the default mapping is not one to one: when a batch has both a
    field and the same name with a leading underscore, the two map to the
    same display name. *)
Theorem create_field_mapping_collision (records : list dict) (field : string) :
  String.prefix "_" field = false ->
  existsb (has_field field) records = true ->
  existsb (has_field ("_" ++ field)) records = true ->
  dict_lookup (create_field_mapping records None) field = Some field /\
  dict_lookup (create_field_mapping records None) ("_" ++ field) = Some field.
Proof.
  intros Hp H1 H2.
  assert (Hne : records <> []) by (intros ->; discriminate).
  split.
  - rewrite (create_field_mapping_entries records None field Hne), H1.
    unfold clean_name. now rewrite Hp.
  - rewrite (create_field_mapping_entries records None ("_" ++ field) Hne), H2.
    unfold clean_name. simpl. now destruct field.
Qed.

Lemma create_field_mapping_collision_witness :
  dict_lookup (create_field_mapping
                 [[("_status", VStr "open")]; [("status", VStr "closed")]] None)
              "status" = Some "status" /\
  dict_lookup (create_field_mapping
                 [[("_status", VStr "open")]; [("status", VStr "closed")]] None)
              ("_" ++ "status") = Some "status".
Proof.
  apply (create_field_mapping_collision
           [[("_status", VStr "open")]; [("status", VStr "closed")]] "status");
    reflexivity.
Defined.

(** *** Record validation *)

Lemma check_required_spec (record : dict) (required_fields : list string) :
  forall results,
    check_required record required_fields results
    = mkValidation
        (is_valid results
         && forallb (fun f => has_field f record) required_fields)
        (missing_fields results
         ++ filter (fun f => negb (has_field f record)) required_fields)
        (empty_fields results ++ filter (field_blank record) required_fields)
        (field_types results) (warnings results).
Proof.
  induction required_fields as [|f rest IH]; intros results; simpl.
  - rewrite andb_true_r, !app_nil_r. now destruct results.
  - rewrite IH. cbn [forallb filter].
    assert (Hhf : has_field f record
                  = match dict_lookup record f with
                    | Some _ => true
                    | None => false
                    end) by reflexivity.
    assert (Hfb : field_blank record f
                  = match dict_lookup record f with
                    | Some VNone => true
                    | Some v => py_eq v (VStr "")
                    | None => false
                    end) by reflexivity.
    rewrite Hhf, Hfb. clear Hhf Hfb.
    destruct (dict_lookup record f) as [v|]; cbn [negb andb].
    + destruct v; cbn - [filter forallb has_field field_blank];
        rewrite <- ?app_assoc, ?andb_true_r; try reflexivity.
      destruct (String.eqb s ""); cbn - [filter forallb has_field field_blank];
        rewrite <- ?app_assoc; reflexivity.
    + cbn - [filter forallb has_field field_blank].
      now rewrite <- app_assoc, andb_false_r.
Qed.

Lemma check_types_keeps (record : dict) :
  forall results,
    is_valid (check_types record results) = is_valid results /\
    missing_fields (check_types record results) = missing_fields results /\
    empty_fields (check_types record results) = empty_fields results /\
    warnings (check_types record results) = warnings results.
Proof.
  unfold check_types.
  induction record as [|[k v] record IH]; intros results; simpl; [auto|].
  destruct v; simpl; try apply IH;
    match goal with
    | |- context [fold_left _ record ?r] => destruct (IH r) as (H1 & H2 & H3 & H4)
    end; simpl in *; auto.
Qed.

(** X14: a record is valid exactly when every required field is one of
    its keys; a required field holding [None] or the empty string does not
    make it invalid.  The missing and the empty fields are reported in the
    order of [required_fields], repetitions included. *)
Theorem validate_record_structure_fields (record : dict)
        (required_fields : list string) :
  let results := validate_record_structure record required_fields in
  is_valid results = forallb (fun f => has_field f record) required_fields /\
  missing_fields results
  = filter (fun f => negb (has_field f record)) required_fields /\
  empty_fields results = filter (field_blank record) required_fields.
Proof.
  unfold validate_record_structure.
  set (r1 := check_required record required_fields _).
  destruct (check_types_keeps record r1) as (H1 & H2 & H3 & H4).
  assert (Hr1 : is_valid r1 = forallb (fun f => has_field f record) required_fields
                /\ missing_fields r1
                   = filter (fun f => negb (has_field f record)) required_fields
                /\ empty_fields r1 = filter (field_blank record) required_fields).
  { unfold r1. rewrite check_required_spec. simpl. auto. }
  destruct Hr1 as (A & B & C).
  destruct (empty_fields (check_types record r1)) eqn:He; simpl;
    repeat split; congruence.
Qed.

(** X15: the call warns at most once: there is no warning when no
    required field is empty, and otherwise one warning that lists the
    empty fields, joined by a comma and a space. *)
Theorem validate_record_structure_warnings (record : dict)
        (required_fields : list string) :
  let blank := filter (field_blank record) required_fields in
  warnings (validate_record_structure record required_fields)
  = match blank with
    | [] => []
    | _ => ["Empty required fields: " ++ str_join ", " blank]
    end.
Proof.
  intros blank. unfold validate_record_structure.
  set (r1 := check_required record required_fields _).
  destruct (check_types_keeps record r1) as (H1 & H2 & H3 & H4).
  assert (He : empty_fields r1 = blank).
  { unfold r1. rewrite check_required_spec. reflexivity. }
  assert (Hw : warnings r1 = []).
  { unfold r1. rewrite check_required_spec. reflexivity. }
  rewrite H3, He.
  destruct blank; simpl; rewrite H4, Hw; reflexivity.
Qed.

Lemma check_types_lookup (record : dict) (k : string) :
  NoDup (map fst record) ->
  forall results,
    dict_lookup (field_types (check_types record results)) k
    = match dict_lookup record k with
      | Some VNone | None => dict_lookup (field_types results) k
      | Some v => Some (type_name v)
      end.
Proof.
  unfold check_types.
  induction record as [|[k0 v0] record IH]; simpl; intros Hnd results;
    [reflexivity|].
  inversion Hnd as [|? ? Hnot Hnd']; subst.
  rewrite (IH Hnd').
  destruct (String.eqb_spec k0 k) as [->|Hne].
  - assert (Hnone : dict_lookup record k = None).
    { destruct (dict_lookup record k) eqn:H; [|reflexivity].
      elim Hnot. apply has_field_In. unfold has_field. now rewrite H. }
    rewrite Hnone.
    destruct v0; simpl; rewrite ?dict_lookup_dict_set, ?String.eqb_refl;
      reflexivity.
  - assert (Hother : forall t,
              dict_lookup (dict_set (field_types results) k0 t) k
              = dict_lookup (field_types results) k).
    { intros t. rewrite dict_lookup_dict_set.
      destruct (String.eqb_spec k0 k); [contradiction|reflexivity]. }
    destruct (dict_lookup record k) as [[]|]; destruct v0; simpl;
      rewrite ?Hother; reflexivity.
Qed.

(** X16: the reported types cover exactly the keys whose value is not
    [None], each with the name of its value's type. *)
Theorem validate_record_structure_types (record : dict)
        (required_fields : list string) (k : string) :
  NoDup (map fst record) ->
  dict_lookup (field_types (validate_record_structure record required_fields)) k
  = match dict_lookup record k with
    | Some VNone | None => None
    | Some v => Some (type_name v)
    end.
Proof.
  intros Hnd. unfold validate_record_structure.
  set (r1 := check_required record required_fields _).
  assert (Hft : dict_lookup (field_types (check_types record r1)) k
                = match dict_lookup record k with
                  | Some VNone | None => None
                  | Some v => Some (type_name v)
                  end).
  { rewrite (check_types_lookup record k Hnd r1).
    unfold r1. rewrite check_required_spec. simpl.
    destruct (dict_lookup record k) as [[]|]; reflexivity. }
  destruct (empty_fields (check_types record r1)); simpl; exact Hft.
Qed.

Lemma validate_record_structure_types_witness :
  dict_lookup (field_types (validate_record_structure
                              [("id", VStr "7"); ("n", VInt 2); ("x", VNone)]
                              ["id"])) "n"
  = Some "int".
Proof.
  apply (validate_record_structure_types
           [("id", VStr "7"); ("n", VInt 2); ("x", VNone)] ["id"] "n").
  repeat constructor; simpl; intuition discriminate.
Defined.

(** *** The export header and rows *)

Lemma insert_item_perm {A : Type} (kv : string * A) (l : list (string * A)) :
  Permutation (insert_item kv l) (kv :: l).
Proof.
  induction l as [|x l IH]; simpl; [reflexivity|].
  destruct (String.leb (fst kv) (fst x)); [reflexivity|].
  rewrite IH. apply perm_swap.
Qed.

Lemma sort_items_perm_self {A : Type} (l : list (string * A)) :
  Permutation (sort_items l) l.
Proof.
  induction l as [|kv l IH]; simpl; [reflexivity|].
  rewrite insert_item_perm. now constructor.
Qed.

Lemma sorted_strings_perm (names : list string) :
  Permutation (sorted_strings names) names.
Proof.
  unfold sorted_strings. rewrite sort_items_perm_self, map_map. simpl.
  now rewrite map_id.
Qed.

Lemma insert_item_sorted {A : Type} (kv : string * A) (l : list (string * A)) :
  Sorted (fun a b => String.leb (fst a) (fst b) = true) l ->
  Sorted (fun a b => String.leb (fst a) (fst b) = true) (insert_item kv l).
Proof.
  induction l as [|x l IH]; simpl; intros Hs.
  - repeat constructor.
  - destruct (String.leb (fst kv) (fst x)) eqn:Hle.
    + constructor; [exact Hs|]. now constructor.
    + inversion Hs as [|? ? Hs' Hhd]; subst.
      constructor; [now apply IH|].
      assert (Hxk : String.leb (fst x) (fst kv) = true).
      { destruct (String.leb_total (fst x) (fst kv)); congruence. }
      destruct l as [|y l]; simpl.
      * now constructor.
      * destruct (String.leb (fst kv) (fst y)); constructor; auto.
        now inversion Hhd.
Qed.

Lemma sort_items_sorted {A : Type} (l : list (string * A)) :
  Sorted (fun a b => String.leb (fst a) (fst b) = true) (sort_items l).
Proof.
  induction l as [|kv l IH]; simpl; [constructor|].
  now apply insert_item_sorted.
Qed.

Lemma sorted_strings_sorted (names : list string) :
  Sorted (fun a b => String.leb a b = true) (sorted_strings names).
Proof.
  unfold sorted_strings.
  pose proof (sort_items_sorted (map (fun k => (k, tt)) names)) as H.
  induction H as [|x l Hs IH Hhd]; simpl; constructor; auto.
  destruct Hhd; simpl; constructor; auto.
Qed.

Lemma dedup_strings_In (names : list string) (x : string) :
  In x (dedup_strings names) <-> In x names.
Proof.
  unfold dedup_strings.
  change (fun seen k => if existsb (String.eqb k) seen then seen
                        else (seen ++ [k])%list) with add_new.
  rewrite fold_add_new_In. simpl. tauto.
Qed.

Lemma dedup_strings_NoDup (names : list string) : NoDup (dedup_strings names).
Proof.
  unfold dedup_strings.
  change (fun seen k => if existsb (String.eqb k) seen then seen
                        else (seen ++ [k])%list) with add_new.
  apply fold_add_new_NoDup. constructor.
Qed.

Lemma mapped_keys (f : string -> string) (record : dict) (k : string) :
  forall row,
    In k (map fst (fold_left (fun row kv => dict_set row (f (fst kv)) (snd kv))
                             record row)) ->
    In k (map fst row) \/ In k (map f (map fst record)).
Proof.
  induction record as [|[k0 v0] record IH]; simpl; intros row H; [now left|].
  apply IH in H. destruct H as [H|H]; [|tauto].
  rewrite dict_set_keys in H. apply add_new_In in H. simpl in H.
  destruct H as [H| ->]; auto.
Qed.

(** X17: every key of a row that the export writes is a column of the
    header, with or without a field mapping; so the row never carries a
    field that the CSV writer does not know. *)
Theorem mapped_record_keys_in_header (records : list dict)
        (field_mapping : option (list (string * string)))
        (record : dict) (k : string) :
  In record records ->
  In k (map fst (mapped_record record field_mapping)) ->
  In k (sorted_fields records field_mapping).
Proof.
  intros Hr Hk. unfold sorted_fields.
  apply (Permutation_in _ (Permutation_sym (sorted_strings_perm _))).
  assert (Hall : forall k0, In k0 (map fst record) -> In k0 (all_fields records)).
  { intros k0 H0. apply all_fields_In, existsb_exists.
    exists record. split; [exact Hr|now apply has_field_In]. }
  unfold mapped_record in Hk.
  destruct field_mapping as [[|e m]|]; auto.
  apply dedup_strings_In.
  apply mapped_keys in Hk. destruct Hk as [[]|Hk].
  apply in_map_iff in Hk. destruct Hk as (k0 & <- & H0).
  apply in_map, Hall, H0.
Qed.

Lemma mapped_record_keys_in_header_witness :
  In "status" (sorted_fields [[("_status", VStr "open"); ("name", VStr "A")]]
                             (Some [("_status", "status")])).
Proof.
  apply (mapped_record_keys_in_header
           [[("_status", VStr "open"); ("name", VStr "A")]]
           (Some [("_status", "status")])
           [("_status", VStr "open"); ("name", VStr "A")] "status").
  - simpl. tauto.
  - simpl. tauto.
Defined.

(** X18: the header lists its columns in ascending order and without
    repetition. *)
Theorem sorted_fields_sorted (records : list dict)
        (field_mapping : option (list (string * string))) :
  Sorted (fun a b => String.leb a b = true) (sorted_fields records field_mapping) /\
  NoDup (sorted_fields records field_mapping).
Proof.
  unfold sorted_fields. split; [apply sorted_strings_sorted|].
  eapply Permutation_NoDup; [apply Permutation_sym, sorted_strings_perm|].
  destruct field_mapping as [[|e m]|];
    auto using all_fields_NoDup, dedup_strings_NoDup.
Qed.

(** *** Pagination: the number of pages *)

(** X19: for a page size of at least 1 the number of pages is the number
    of records divided by the page size, rounded up, and page [i] holds
    the records from position [i * page_size] on. *)
Theorem paginate_records_count {A : Type} (records : list A) (page_size : Z) :
  1 <= page_size ->
  exists pages,
    paginate_records records page_size = Ok pages /\
    Z.of_nat (List.length pages)
    = (Z.of_nat (List.length records) + page_size - 1) / page_size /\
    forall i, (i < List.length pages)%nat ->
              nth_error pages i
              = Some (firstn (Z.to_nat page_size)
                             (skipn (i * Z.to_nat page_size) records)).
Proof.
  intros Hp. eexists. split; [apply paginate_records_chunks; exact Hp|].
  set (n := Z.of_nat (List.length records)).
  rewrite length_map, length_seq. split.
  - destruct (Z.ltb_spec 0 n) as [Hn|Hn].
    + replace (n + page_size - 1) with ((n - 1) + 1 * page_size) by lia.
      rewrite Z.div_add by lia.
      assert (0 <= (n - 1) / page_size) by (apply Z.div_pos; lia). lia.
    + assert (n = 0) by (unfold n in *; lia).
      replace (n + page_size - 1) with (page_size - 1) by lia.
      rewrite Z.div_small by lia. reflexivity.
  - intros i Hi. rewrite nth_error_map, nth_error_seq.
    destruct (Nat.ltb_spec i (Z.to_nat (if 0 <? n then (n - 1) / page_size + 1 else 0)));
      [reflexivity|lia].
Qed.

Lemma paginate_records_count_witness :
  exists pages,
    paginate_records [VInt 1; VInt 2; VInt 3; VInt 4; VInt 5] 2 = Ok pages /\
    Z.of_nat (List.length pages) = (5 + 2 - 1) / 2.
Proof.
  destruct (paginate_records_count [VInt 1; VInt 2; VInt 3; VInt 4; VInt 5] 2
              ltac:(lia)) as (pages & Hrun & Hlen & _).
  exists pages. split; [exact Hrun|exact Hlen].
Defined.

(** *** Flattening: flat input, failure, output keys *)

Lemma dict_set_fresh {A : Type} (m : list (string * A)) (k : string) (v : A) :
  ~ In k (map fst m) -> dict_set m k v = (m ++ [(k, v)])%list.
Proof.
  induction m as [|[k0 v0] m IH]; simpl; intros H; [reflexivity|].
  destruct (String.eqb_spec k0 k) as [->|Hne]; [tauto|].
  rewrite IH by tauto. reflexivity.
Qed.

Lemma dict_of_items_fresh {A : Type} (items : list (string * A)) :
  forall acc,
    NoDup (map fst acc ++ map fst items) ->
    fold_left (fun d kv => dict_set d (fst kv) (snd kv)) items acc
    = (acc ++ items)%list.
Proof.
  induction items as [|[k v] items IH]; simpl; intros acc Hnd.
  - now rewrite app_nil_r.
  - rewrite dict_set_fresh.
    + rewrite IH; [now rewrite <- app_assoc|].
      rewrite map_app, <- app_assoc. exact Hnd.
    + apply NoDup_remove_2 in Hnd. intros H. apply Hnd, in_or_app. now left.
Qed.

Lemma dict_of_items_NoDup {A : Type} (items : list (string * A)) :
  NoDup (map fst (dict_of_items items)).
Proof.
  unfold dict_of_items.
  assert (H : forall acc, NoDup (map fst acc) ->
             NoDup (map fst (fold_left (fun d kv => dict_set d (fst kv) (snd kv))
                                       items acc))).
  { induction items as [|kv items IH]; simpl; intros acc Hacc; [exact Hacc|].
    apply IH. rewrite dict_set_keys. now apply add_new_NoDup. }
  apply H. constructor.
Qed.

Lemma flatten_items_flat (callee : dict -> string -> string -> result dict)
      (data : dict) (sep : string) :
  forallb (fun kv => is_scalar (snd kv)) data = true ->
  forall items,
    flatten_items callee data "" sep items = Ok (items ++ data)%list.
Proof.
  induction data as [|[k v] data IH]; simpl; intros Hd items.
  - now rewrite app_nil_r.
  - apply andb_true_iff in Hd. destruct Hd as [Hv Hd].
    destruct v; try discriminate Hv; rewrite (IH Hd), <- app_assoc; reflexivity.
Qed.

(** X20: a mapping that is flat already, with scalar values only and
    distinct keys, is returned unchanged. *)
Theorem flatten_nested_dict_flat (data : dict) (sep : string) :
  forallb (fun kv => is_scalar (snd kv)) data = true ->
  NoDup (map fst data) ->
  flatten_nested_dict data "" sep = Ok data.
Proof.
  intros Hd Hnd. unfold flatten_nested_dict, flatten_body.
  rewrite (flatten_items_flat _ data sep Hd). simpl. f_equal.
  unfold dict_of_items. now rewrite dict_of_items_fresh.
Qed.

Lemma flatten_nested_dict_flat_witness :
  flatten_nested_dict [("id", VStr "7"); ("n", VInt 2); ("x", VNone)] "" "_"
  = Ok [("id", VStr "7"); ("n", VInt 2); ("x", VNone)].
Proof.
  apply flatten_nested_dict_flat.
  - reflexivity.
  - repeat constructor; simpl; intuition discriminate.
Defined.

Lemma flatten_list_mapping_raises (new_key sep : string) (v : list value) :
  forallb (fun x => negb (is_dict x)) v = false ->
  forall i items,
    flatten_list (unbound_global "flatten_nested_dict") new_key sep i v items
    = Raise (NameError "flatten_nested_dict").
Proof.
  induction v as [|item rest IH]; simpl; intros Hv i items; [discriminate|].
  apply andb_false_iff in Hv.
  destruct item; try reflexivity;
    (destruct Hv as [Hv|Hv]; [discriminate Hv|]); now apply IH.
Qed.

Lemma flatten_items_mapping_entry_raises (data : dict) (parent_key sep : string) :
  no_mapping_entries data = false ->
  forall items,
    flatten_items (unbound_global "flatten_nested_dict") data parent_key sep items
    = Raise (NameError "flatten_nested_dict").
Proof.
  induction data as [|[k v] data IH]; intros Hd items; [discriminate|].
  cbn [flatten_items]. simpl in Hd. apply andb_false_iff in Hd.
  set (new_key := if truthy (VStr parent_key)
                  then parent_key ++ sep ++ k else k).
  destruct v as [ | b | z | f | s | l | d ]; cbv beta iota;
    try (destruct Hd as [Hd|Hd]; [discriminate Hd|]; now apply IH).
  - destruct (forallb (fun x => negb (is_dict x)) l) eqn:Hl.
    + destruct (flatten_list_no_mapping
                  (unbound_global "flatten_nested_dict") new_key sep l Hl 0 items)
        as [mid Hmid].
      rewrite Hmid. cbn [bind].
      destruct Hd as [Hd|Hd]; [discriminate Hd|]. now apply IH.
    + now rewrite flatten_list_mapping_raises.
  - reflexivity.
Qed.

(** X21: [flatten_nested_dict] fails exactly on the mappings that have a
    mapping as an entry or inside a sequence entry, and then always with
    the [NameError] of its inner call; every other mapping is flattened. *)
Theorem flatten_nested_dict_failure (data : dict) (parent_key sep : string) :
  (no_mapping_entries data = false ->
   flatten_nested_dict data parent_key sep
   = Raise (NameError "flatten_nested_dict")) /\
  (no_mapping_entries data = true ->
   exists out, flatten_nested_dict data parent_key sep = Ok out).
Proof.
  unfold flatten_nested_dict, flatten_body. split; intros Hd.
  - now rewrite flatten_items_mapping_entry_raises.
  - destruct (flatten_items_no_mapping
                (unbound_global "flatten_nested_dict") data parent_key sep Hd [])
      as [items Hrun].
    rewrite Hrun. simpl. eauto.
Qed.

Lemma flatten_nested_dict_failure_witness :
  flatten_nested_dict [("n", VInt 1); ("tags", VList [VStr "a"; VDict []])] "" "_"
  = Raise (NameError "flatten_nested_dict").
Proof.
  apply (proj1 (flatten_nested_dict_failure
                  [("n", VInt 1); ("tags", VList [VStr "a"; VDict []])] "" "_")).
  reflexivity.
Defined.

(** X22: the keys of a flattened mapping are pairwise distinct, also when
    two entries of the input lead to the same key (the later one then
    holds the value). *)
Theorem flatten_nested_dict_keys_distinct (data : dict) (parent_key sep : string)
        (out : dict) :
  flatten_nested_dict data parent_key sep = Ok out ->
  NoDup (map fst out).
Proof.
  unfold flatten_nested_dict, flatten_body.
  destruct (flatten_items _ data parent_key sep []) as [items|]; simpl;
    [|discriminate].
  intros [= <-]. apply dict_of_items_NoDup.
Qed.

Lemma flatten_nested_dict_keys_distinct_witness :
  NoDup (map fst [("a_0", VStr "x")]).
Proof.
  apply (flatten_nested_dict_keys_distinct
           [("a", VList [VInt 1]); ("a_0", VStr "x")] "" "_").
  reflexivity.
Defined.

(** *** Merging: order, idempotence, failure *)

Lemma vdict_lookup_existsb {A : Type} (m : list (value * A)) (k : value) :
  existsb (fun k0 => py_eq k0 k) (map fst m)
  = match vdict_lookup m k with Some _ => true | None => false end.
Proof.
  induction m as [|[k0 v0] m IH]; simpl; [reflexivity|].
  destruct (py_eq k0 k); simpl; auto.
Qed.

Lemma existsb_py_eq_false (ks : list value) (k : value) :
  existsb (fun k0 => py_eq k0 k) ks = false ->
  forall k', In k' ks -> py_eq k' k = false.
Proof.
  intros H k' Hin. destruct (py_eq k' k) eqn:Hk; [|reflexivity].
  assert (existsb (fun k0 => py_eq k0 k) ks = true); [|congruence].
  apply existsb_exists. eauto.
Qed.

(** One turn of the loop moves the keys as [first_seen_step] says and
    keeps the entries keyed. *)
Lemma merge_step_keys (merge_key : string) (m m' : list (value * dict))
      (r : dict) :
  Forall (entry_keyed merge_key) m ->
  merge_step merge_key m r = Ok m' ->
  map fst m' = first_seen_step merge_key (map fst m) r /\
  Forall (entry_keyed merge_key) m' /\
  (forall x, In x (map snd m') -> x = r \/ In x (map snd m)).
Proof.
  intros Hent. unfold merge_step, first_seen_step.
  destruct (truthy (dict_get r merge_key)) eqn:Ht; cbn [negb].
  2: { intros [= <-]. auto. }
  destruct (hashable (dict_get r merge_key)) eqn:Hh; cbn [negb]; [|discriminate].
  rewrite vdict_lookup_existsb.
  destruct (vdict_lookup m (dict_get r merge_key)) as [cur|] eqn:Hlook.
  - destruct (vdict_lookup_some _ _ _ Hlook)
      as (m1 & k0 & m2 & -> & Hk0 & Hm1 & Hset).
    assert (Hnew : map fst (m1 ++ (k0, r) :: m2) = map fst (m1 ++ (k0, cur) :: m2)
                   /\ Forall (entry_keyed merge_key) (m1 ++ (k0, r) :: m2)
                   /\ (forall x, In x (map snd (m1 ++ (k0, r) :: m2)) ->
                                 x = r \/ In x (map snd (m1 ++ (k0, cur) :: m2)))).
    { split; [now rewrite !map_app|]. split.
      - apply Forall_app in Hent. destruct Hent as [H1 H2].
        inversion H2 as [|? ? (Hh0 & _) H2']; subst.
        apply Forall_app. split; [exact H1|]. constructor; [|exact H2'].
        repeat split; auto.
      - intros x. rewrite !map_app, !in_app_iff. simpl.
        intros [H|[H|H]]; auto. }
    destruct (py_gt _ _) as [[|]|]; simpl; intros [= <-].
    + now rewrite Hset.
    + auto.
  - destruct (vdict_lookup_none m _ r Hlook) as [_ Hset].
    intros [= <-]. rewrite Hset. split; [|split].
    + rewrite map_app. reflexivity.
    + apply Forall_app. split; [exact Hent|]. constructor; [|constructor].
      repeat split; auto. now apply py_eq_refl.
    + intros x. rewrite map_app, in_app_iff. simpl.
      intros [H|[H|[]]]; auto.
Qed.

Lemma merge_loop_keys (merge_key : string) (records : list dict) :
  forall m m',
    Forall (entry_keyed merge_key) m ->
    merge_loop merge_key m records = Ok m' ->
    map fst m' = fold_left (first_seen_step merge_key) records (map fst m) /\
    Forall (entry_keyed merge_key) m' /\
    (forall x, In x (map snd m') -> In x records \/ In x (map snd m)).
Proof.
  induction records as [|r rest IH]; simpl; intros m m' Hent Hrun.
  - injection Hrun as <-. auto.
  - destruct (merge_step merge_key m r) as [m1|] eqn:Hstep; simpl in Hrun;
      [|discriminate].
    destruct (merge_step_keys _ _ _ _ Hent Hstep) as (Hk & Hent1 & Hin).
    destruct (IH m1 m' Hent1 Hrun) as (Hk' & Hent' & Hin').
    split; [now rewrite Hk', Hk|]. split; [exact Hent'|].
    intros x Hx. destruct (Hin' x Hx) as [H|H]; [tauto|].
    destruct (Hin x H); subst; tauto.
Qed.

Lemma first_seen_distinct (merge_key : string) (records : list dict) :
  forall ks, keys_distinct ks ->
             keys_distinct (fold_left (first_seen_step merge_key) records ks).
Proof.
  induction records as [|r rest IH]; simpl; intros ks Hks; [exact Hks|].
  apply IH. unfold first_seen_step.
  destruct (truthy (dict_get r merge_key)); simpl; [|exact Hks].
  destruct (existsb _ ks) eqn:He; [exact Hks|].
  apply keys_distinct_snoc; [exact Hks|].
  now apply existsb_py_eq_false.
Qed.

(** X24: when [merge_records] returns, its result has one record for each
    identity of the batch, in the order in which the identities first
    appear, and every record of the result is a record of the batch. *)
Theorem merge_records_first_seen_order (records : list dict) (merge_key : string)
        (out : list dict) :
  fst (merge_records records merge_key) = Ok out ->
  Forall2 (fun r k0 => py_eq k0 (dict_get r merge_key) = true)
          out (first_seen_keys merge_key records) /\
  forall r, In r out -> In r records.
Proof.
  unfold merge_records, silent. simpl.
  destruct (merge_loop merge_key [] records) as [m|] eqn:Hrun; simpl;
    [|discriminate].
  intros [= <-].
  destruct (merge_loop_keys merge_key records [] m (Forall_nil _) Hrun)
    as (Hk & Hent & Hin).
  split.
  - unfold first_seen_keys, vdict_values. simpl in Hk. rewrite <- Hk.
    clear - Hent. induction Hent as [|e m (_ & _ & He) _ IH]; simpl;
      constructor; auto.
  - intros r Hr. destruct (Hin r Hr) as [H|[]]. exact H.
Qed.

Lemma merge_records_first_seen_order_witness :
  Forall2 (fun r k0 => py_eq k0 (dict_get r "id") = true)
          [ [("id", VStr "b"); ("v", VInt 1)]; [("id", VInt 1); ("v", VInt 2)] ]
          (first_seen_keys "id"
             [ [("id", VStr "b"); ("v", VInt 1)]; [("id", VInt 1); ("v", VInt 2)];
               [("id", VBool true); ("v", VInt 3)]; [("v", VInt 4)] ]).
Proof.
  apply (merge_records_first_seen_order
           [ [("id", VStr "b"); ("v", VInt 1)]; [("id", VInt 1); ("v", VInt 2)];
             [("id", VBool true); ("v", VInt 3)]; [("v", VInt 4)] ] "id").
  reflexivity.
Defined.

(** The identities of the survivors are pairwise different. *)
Lemma entries_distinct_ids (merge_key : string) (m : list (value * dict)) :
  Forall (entry_keyed merge_key) m ->
  keys_distinct (map fst m) ->
  keys_distinct (map (fun r => dict_get r merge_key) (map snd m)).
Proof.
  induction m as [|e m IH]; simpl; intros Hent Hd; [exact I|].
  inversion Hent as [|? ? (Hh & Ht & He) Hent']; subst.
  destruct Hd as [Hk Hd]. split; [|now apply IH].
  intros k' Hk'. rewrite map_map in Hk'.
  apply in_map_iff in Hk'. destruct Hk' as (e' & <- & He').
  pose proof (proj1 (Forall_forall _ _) Hent' e' He') as (Hh' & _ & He'').
  destruct (py_eq (dict_get (snd e) merge_key) (dict_get (snd e') merge_key))
    eqn:Hq; [|reflexivity].
  assert (py_eq (fst e) (fst e') = true).
  { eapply py_eq_trans; [exact Hh|exact He|].
    eapply py_eq_trans; [|exact Hq|].
    - exact (py_eq_hashable _ _ Hh He).
    - now apply py_eq_sym. }
  rewrite (Hk (fst e') (in_map fst _ _ He')) in *. discriminate.
Qed.

(** Records with truthy, hashable and pairwise different identities are
    all kept, in order. *)
Lemma merge_loop_distinct (merge_key : string) (records : list dict) :
  Forall (fun r => truthy (dict_get r merge_key) = true /\
                   hashable (dict_get r merge_key) = true) records ->
  keys_distinct (map (fun r => dict_get r merge_key) records) ->
  forall m,
    (forall e r, In e m -> In r records ->
                 py_eq (fst e) (dict_get r merge_key) = false) ->
    merge_loop merge_key m records
    = Ok (m ++ map (fun r => (dict_get r merge_key, r)) records)%list.
Proof.
  induction records as [|r rest IH]; simpl; intros Hall Hd m Hm.
  - now rewrite app_nil_r.
  - inversion Hall as [|? ? [Ht Hh] Hall']; subst. destruct Hd as [Hk Hd].
    unfold merge_step. rewrite Ht, Hh. cbn [negb].
    assert (Hlook : vdict_lookup m (dict_get r merge_key) = None).
    { destruct (vdict_lookup m (dict_get r merge_key)) eqn:Hl; [|reflexivity].
      destruct (vdict_lookup_some _ _ _ Hl) as (m1 & k0 & m2 & -> & Hk0 & _).
      assert (Hne : py_eq (fst (k0, d)) (dict_get r merge_key) = false).
      { apply Hm; [|now left]. apply in_or_app. right. now left. }
      simpl in Hne. congruence. }
    rewrite Hlook. destruct (vdict_lookup_none m _ r Hlook) as [_ Hset].
    rewrite Hset. cbn [bind]. rewrite IH; auto.
    + now rewrite <- app_assoc.
    + intros e r' He Hr'. apply in_app_or in He. destruct He as [He|[<-|[]]].
      * apply Hm; auto.
      * simpl. apply Hk. apply in_map_iff. exists r'. auto.
Qed.

(** X25: merging is idempotent: merging a result of [merge_records] again
    returns it unchanged. *)
Theorem merge_records_idempotent (records : list dict) (merge_key : string)
        (out : list dict) :
  fst (merge_records records merge_key) = Ok out ->
  merge_records out merge_key = (Ok out, []).
Proof.
  unfold merge_records at 1. unfold silent. simpl.
  destruct (merge_loop merge_key [] records) as [m|] eqn:Hrun; simpl;
    [|discriminate].
  intros [= <-].
  destruct (merge_loop_keys merge_key records [] m (Forall_nil _) Hrun)
    as (Hk & Hent & _).
  assert (Hd : keys_distinct (map fst m)).
  { rewrite Hk. apply first_seen_distinct. exact I. }
  unfold merge_records, silent, vdict_values.
  rewrite merge_loop_distinct.
  - simpl. rewrite map_map. simpl. now rewrite map_id.
  - clear - Hent. induction Hent as [|e m (Hh & Ht & He) _ IH]; simpl;
      constructor; auto.
    split; [exact Ht|]. exact (py_eq_hashable _ _ Hh He).
  - now apply entries_distinct_ids.
  - intros e r [].
Qed.

Lemma merge_records_idempotent_witness :
  merge_records [ [("id", VStr "1"); ("_updated_at", VStr "2024-02-01T00:00:00Z")];
                  [("id", VInt 2)] ] "id"
  = (Ok [ [("id", VStr "1"); ("_updated_at", VStr "2024-02-01T00:00:00Z")];
          [("id", VInt 2)] ], []).
Proof.
  apply (merge_records_idempotent
           [ [("id", VStr "1"); ("_updated_at", VStr "2024-01-01T00:00:00Z")];
             [("id", VStr "1"); ("_updated_at", VStr "2024-02-01T00:00:00Z")];
             [("id", VInt 2)]; [("id", VStr "")] ] "id").
  reflexivity.
Defined.

Lemma py_gt_raises (a : value) :
  forall b e, py_gt a b = Raise e -> e = TypeError.
Proof.
  induction a as [ | x | z | f | s | l IHl | d IHd ] using value_nested_ind;
    intros b e H; simpl in H;
    try (destruct b; simpl in H; congruence).
  destruct b as [ | | | | | lb | ]; try congruence.
  revert lb H. induction IHl as [|x xs Hx _ IHxs]; intros [|y ys] H;
    try discriminate.
  destruct (py_eq x y); eauto.
Qed.

Lemma merge_step_raises (merge_key : string) (m : list (value * dict))
      (r : dict) (e : exn) :
  merge_step merge_key m r = Raise e -> e = TypeError.
Proof.
  unfold merge_step.
  destruct (truthy (dict_get r merge_key)); cbn [negb]; [|discriminate].
  destruct (hashable (dict_get r merge_key)); cbn [negb]; [|congruence].
  destruct (vdict_lookup m (dict_get r merge_key)); [|discriminate].
  destruct (py_gt _ _) as [[|]|e'] eqn:Hgt; simpl; try discriminate.
  intros [= <-]. eapply py_gt_raises; eauto.
Qed.

(** X26: a record whose identity is a non-empty list or mapping makes the
    whole merge fail with [TypeError]: no record of the batch is
    returned. *)
Theorem merge_records_unhashable_identity (records : list dict)
        (merge_key : string) (r : dict) :
  In r records ->
  truthy (dict_get r merge_key) = true ->
  hashable (dict_get r merge_key) = false ->
  merge_records records merge_key = (Raise TypeError, []).
Proof.
  intros Hin Ht Hh. unfold merge_records, silent. f_equal.
  assert (H : forall m, merge_loop merge_key m records = Raise TypeError).
  { induction records as [|x rest IH]; [destruct Hin|]. intros m. simpl.
    destruct (merge_step merge_key m x) as [m1|e] eqn:Hstep; simpl.
    - destruct Hin as [->|Hin]; [|now apply IH].
      unfold merge_step in Hstep. rewrite Ht, Hh in Hstep. discriminate.
    - f_equal. eapply merge_step_raises; eauto. }
  now rewrite H.
Qed.

Lemma merge_records_unhashable_identity_witness :
  merge_records [ [("id", VStr "1")]; [("id", VList [VInt 1])] ] "id"
  = (Raise TypeError, []).
Proof.
  apply (merge_records_unhashable_identity _ _ [("id", VList [VInt 1])]).
  - simpl. tauto.
  - reflexivity.
  - reflexivity.
Defined.
